(** * A worker registry on SQLite: the model of [idd1.py]

    The program keeps people and their phone numbers in two SQLite tables
    and offers three commands ([add], [display], [find]).  This file embeds
    the Python functions of [src/py/id/idd1.py] together with the part of the
    storage engine and of the argument parser that they drive, and proves the
    properties of the specification against that embedding.

    Modelling conventions.
    - A Python [str] is its sequence of Unicode code points ([pystr]); the
      engine stores and returns such text unchanged (text that UTF-8 can
      encode, so without lone surrogates).
    - A Python [int] is a [Z].
    - The SQL statements of the source are kept as syntax trees and run by
      one interpreter, so a statement that names a missing column fails the
      way the engine fails it.
    - A connection works on its own copy of the database; only DDL (run in
      autocommit mode) and [commit] write to the file system.
    - Three limits of the storage layer are part of the model, since plain
      arguments reach them: an [int] bound to a statement must fit 64 bits
      ([OverflowError] otherwise), a LIKE pattern may have at most 50000
      bytes, and no row id follows the largest one, 2^63 - 1.  Failures of
      the disk and of memory, and the limit of 10^9 bytes on one text, are
      outside the model. *)

From Stdlib Require Import ZArith NArith Ascii String List Bool Lia.
From stdpp Require Import base option list gmap strings fin_maps pretty.

Local Open Scope string_scope.
Local Open Scope Z_scope.

(** ** Text *)

Module Text.

(** A Python string: a sequence of code points. *)
Abbreviation pystr := (list N).

(** Decoder used to write literals: the UTF-8 bytes of a Rocq string
    literal are turned into code points. *)
Fixpoint utf8_decode (bs : list N) : pystr :=
  match bs with
  | [] => []
  | b0 :: t0 =>
    if (b0 <? 128)%N then b0 :: utf8_decode t0
    else if (b0 <? 224)%N then
      match t0 with
      | b1 :: t1 => ((b0 mod 32) * 64 + b1 mod 64)%N :: utf8_decode t1
      | _ => []
      end
    else if (b0 <? 240)%N then
      match t0 with
      | b1 :: b2 :: t2 =>
        ((b0 mod 16) * 4096 + (b1 mod 64) * 64 + b2 mod 64)%N
          :: utf8_decode t2
      | _ => []
      end
    else
      match t0 with
      | b1 :: b2 :: b3 :: t3 =>
        ((b0 mod 8) * 262144 + (b1 mod 64) * 4096
         + (b2 mod 64) * 64 + b3 mod 64)%N :: utf8_decode t3
      | _ => []
      end
  end.

Definition str (s : string) : pystr :=
  utf8_decode (map N_of_ascii (list_ascii_of_string s)).

(** [str(n)] for an integer: its decimal digits. *)
Definition str_of_Z (n : Z) : pystr := str (pretty n).

Definition pystr_eqb (a b : pystr) : bool := bool_decide (a = b).

(** The number of bytes UTF-8 takes for a code point, and for a string. *)
Definition utf8_size (c : N) : N :=
  if (c <? 128)%N then 1
  else if (c <? 2048)%N then 2
  else if (c <? 65536)%N then 3
  else 4.

Definition utf8_length (s : pystr) : N :=
  foldr (fun c n => (utf8_size c + n)%N) 0%N s.

(** [s * n]: repetition. *)
Definition repeat_str (s : pystr) (n : nat) : pystr :=
  concat (replicate n s).

End Text.
Export Text.

(** ** The storage engine *)

Module Sql.

Inductive value :=
| VNull
| VInt (n : Z)
| VText (s : pystr).

#[global] Instance value_eq_dec : EqDecision value.
Proof. solve_decision. Defined.

Inductive affinity := INTEGER | TEXT.

(** One column of a CREATE TABLE: its name, declared type, whether it is
    [PRIMARY KEY AUTOINCREMENT] and whether it is [NOT NULL]. *)
Record column := Column {
  col_name : string;
  col_type : affinity;
  col_pk_autoinc : bool;
  col_notnull : bool
}.

(** [FOREIGN KEY(fk_col) REFERENCES fk_table(fk_ref)].  The program never
    turns foreign-key enforcement on, so the clause is part of the schema
    and nothing else. *)
Record foreign_key := ForeignKey {
  fk_col : string;
  fk_table : string;
  fk_ref : string
}.

(** A table: its definition, its rows in row-id order (each row holds one
    value per column) and the largest row id it has ever held.  The engine
    keeps that counter in its internal table [sqlite_sequence], which the
    model does not count among the tables of the database. *)
Record table := Table {
  t_cols : list column;
  t_fks : list foreign_key;
  t_rows : list (list value);
  t_seq : Z
}.

#[global] Instance affinity_eq_dec : EqDecision affinity.
Proof. solve_decision. Defined.
#[global] Instance column_eq_dec : EqDecision column.
Proof. solve_decision. Defined.
#[global] Instance foreign_key_eq_dec : EqDecision foreign_key.
Proof. solve_decision. Defined.
#[global] Instance table_eq_dec : EqDecision table.
Proof. solve_decision. Defined.

Abbreviation database := (gmap string table).

(** Errors of the engine, as the Python binding raises them. *)
Inductive sql_error :=
| OperationalError (msg : string)
| IntegrityError (msg : string).

Inductive sql_result (A : Type) :=
| SqlOk (a : A)
| SqlErr (e : sql_error).
Arguments SqlOk {A} a.
Arguments SqlErr {A} e.

Definition sql_bind {A B} (r : sql_result A) (k : A -> sql_result B)
  : sql_result B :=
  match r with
  | SqlOk a => k a
  | SqlErr e => SqlErr e
  end.

(** *** CREATE TABLE IF NOT EXISTS *)

Definition create_table_if_not_exists
    (name : string) (cols : list column) (fks : list foreign_key)
    (db : database) : database :=
  match db !! name with
  | Some _ => db
  | None => <[name := Table cols fks [] 0]> db
  end.

(** *** Column positions *)

Fixpoint col_index (cols : list column) (c : string) : option nat :=
  match cols with
  | [] => None
  | k :: cols' =>
    if String.eqb (col_name k) c then Some O
    else S <$> col_index cols' c
  end.

Fixpoint pk_index (cols : list column) : option nat :=
  match cols with
  | [] => None
  | k :: cols' =>
    if col_pk_autoinc k then Some O else S <$> pk_index cols'
  end.

Definition field (i : nat) (row : list value) : value :=
  nth i row VNull.

(** The row id of a row: the integer in its primary-key column. *)
Definition rowid_at (i : nat) (row : list value) : Z :=
  match field i row with
  | VInt n => n
  | _ => 0
  end.

(** *** INSERT *)

(** The value an INSERT gives to column number [j]: the one listed for it,
    NULL when the column is not listed. *)
Fixpoint assigned (j : nat) (idxs : list nat) (vals : list value) : value :=
  match idxs, vals with
  | i :: idxs', v :: vals' =>
    if Nat.eqb i j then v else assigned j idxs' vals'
  | _, _ => VNull
  end.

Definition build_row (width : nat) (idxs : list nat) (vals : list value)
  : list value :=
  map (fun j => assigned j idxs vals) (seq 0 width).

(** First NOT NULL column (other than the row-id column, where NULL asks
    for a generated id) that the row leaves NULL. *)
Fixpoint null_violation (pk : option nat) (j : nat) (cols : list column)
    (row : list value) : option string :=
  match cols, row with
  | k :: cols', v :: row' =>
    if col_notnull k && negb (bool_decide (pk = Some j))
       && bool_decide (v = VNull)
    then Some (col_name k)
    else null_violation pk (S j) cols' row'
  | _, _ => None
  end.

Definition max_rowid (i : nat) (rows : list (list value)) : Z :=
  foldr (fun r m => Z.max (rowid_at i r) m) 0 rows.

Definition has_rowid (i : nat) (k : Z) (rows : list (list value)) : bool :=
  existsb (fun r => rowid_at i r =? k) rows.

(** Rows are kept in row-id order, the order of a table scan. *)
Fixpoint place_row (i : nat) (row : list value) (rows : list (list value))
  : list (list value) :=
  match rows with
  | [] => [row]
  | r :: rows' =>
    if rowid_at i row <? rowid_at i r then row :: r :: rows'
    else r :: place_row i row rows'
  end.

Definition set_field (i : nat) (v : value) (row : list value) : list value :=
  <[i := v]> row.

(** The largest row id there is. *)
Definition largest_rowid : Z := 2 ^ 63 - 1.

(** An id cannot be generated any more once the largest one has been used,
    be it still in the table or only remembered by the counter. *)
Definition rowids_exhausted (pk : option nat) (row : list value) (t : table)
  : bool :=
  match pk with
  | Some i =>
    match field i row with
    | VNull => largest_rowid <=? Z.max (t_seq t) (max_rowid i (t_rows t))
    | _ => false
    end
  | None => false
  end.

(** Preparing [INSERT INTO tname (cols) VALUES (?, ...)]: the table and
    the positions of the listed columns. *)
Definition prepare_insert (tname : string) (cols : list string)
    (db : database) : sql_result (table * list nat) :=
  match db !! tname with
  | None => SqlErr (OperationalError ("no such table: " +:+ tname))
  | Some t =>
    match mapM (col_index (t_cols t)) cols with
    | None =>
      SqlErr (OperationalError ("table " +:+ tname +:+ " has no such column"))
    | Some idxs => SqlOk (t, idxs)
    end
  end.

(** Running the prepared INSERT on the bound values: the new database and
    the row id of the inserted row ([lastrowid]).  A row id that has to be
    generated is taken before the constraints of the row are checked. *)
Definition step_insert (tname : string) (cols : list string)
    (stmt : table * list nat) (vals : list value) (db : database)
  : sql_result (database * Z) :=
  let (t, idxs) := stmt in
  if negb (Nat.eqb (length cols) (length vals)) then
    SqlErr (OperationalError "values do not match the column list")
  else
    let row := build_row (length (t_cols t)) idxs vals in
    let pk := pk_index (t_cols t) in
    if rowids_exhausted pk row t then
      SqlErr (OperationalError "database or disk is full")
    else
      match null_violation pk 0 (t_cols t) row with
      | Some c =>
        SqlErr (IntegrityError
                  ("NOT NULL constraint failed: " +:+ tname +:+ "." +:+ c))
      | None =>
        match pk with
        | None =>
          (* no row-id alias: the row goes last *)
          SqlOk (<[tname := Table (t_cols t) (t_fks t)
                                  (t_rows t ++ [row]) (t_seq t)]> db,
                 Z.of_nat (length (t_rows t)) + 1)
        | Some i =>
          match field i row with
          | VText _ => SqlErr (IntegrityError "datatype mismatch")
          | VInt k =>
            if has_rowid i k (t_rows t) then
              SqlErr (IntegrityError
                        ("UNIQUE constraint failed: " +:+ tname +:+ "."
                         +:+ default "" (col_name <$> t_cols t !! i)))
            else
              SqlOk (<[tname := Table (t_cols t) (t_fks t)
                                      (place_row i row (t_rows t))
                                      (Z.max (t_seq t) k)]> db, k)
          | VNull =>
            (* AUTOINCREMENT: one more than the largest id ever used *)
            let k := Z.max (t_seq t) (max_rowid i (t_rows t)) + 1 in
            SqlOk (<[tname := Table (t_cols t) (t_fks t)
                                    (place_row i (set_field i (VInt k) row)
                                               (t_rows t))
                                    k]> db, k)
          end
        end
      end.

(** *** Expressions *)

Record colref := ColRef {
  cr_table : option string;
  cr_col : string
}.

Inductive expr :=
| EColumn (c : colref)
| EParam (i : nat)            (* the i-th [?] *)
| ELit (v : value)
| EEq (a b : expr)            (* a = b *)
| ELike (a pat : expr)        (* a LIKE pat *)
| EConcat (a b : expr).       (* a || b *)

(** The tables of a FROM clause, each with its columns. *)
Definition scope := list (string * list column).

Fixpoint resolve_in (sc : scope) (pos : nat) (t : string) (c : string)
  : option (nat * nat) :=
  match sc with
  | [] => None
  | (name, cols) :: sc' =>
    if String.eqb name t then (fun ci => (pos, ci)) <$> col_index cols c
    else resolve_in sc' (S pos) t c
  end.

Fixpoint candidates (sc : scope) (pos : nat) (c : string)
  : list (nat * nat) :=
  match sc with
  | [] => []
  | (_, cols) :: sc' =>
    match col_index cols c with
    | Some ci => (pos, ci) :: candidates sc' (S pos) c
    | None => candidates sc' (S pos) c
    end
  end.

(** Name resolution: [t.c] needs table [t] of the FROM clause to have a
    column [c]; a bare [c] needs exactly one table to have it. *)
Definition resolve (sc : scope) (c : colref) : option (nat * nat) :=
  match cr_table c with
  | Some t => resolve_in sc O t (cr_col c)
  | None =>
    match candidates sc O (cr_col c) with
    | [p] => Some p
    | _ => None
    end
  end.

Definition colref_name (c : colref) : string :=
  match cr_table c with
  | Some t => t +:+ "." +:+ cr_col c
  | None => cr_col c
  end.

Definition check_colref (sc : scope) (c : colref) : sql_result unit :=
  match resolve sc c with
  | Some _ => SqlOk tt
  | None => SqlErr (OperationalError ("no such column: " +:+ colref_name c))
  end.

Fixpoint check_expr (sc : scope) (e : expr) : sql_result unit :=
  match e with
  | EColumn c => check_colref sc c
  | EParam _ | ELit _ => SqlOk tt
  | EEq a b | ELike a b | EConcat a b =>
    sql_bind (check_expr sc a) (fun _ => check_expr sc b)
  end.

Fixpoint check_colrefs (sc : scope) (cs : list colref) : sql_result unit :=
  match cs with
  | [] => SqlOk tt
  | c :: cs' => sql_bind (check_colref sc c) (fun _ => check_colrefs sc cs')
  end.

(** *** LIKE *)

(** Text functions of the engine read their arguments as NUL-terminated
    strings. *)
Fixpoint c_str (s : pystr) : pystr :=
  match s with
  | [] => []
  | c :: s' => if (c =? 0)%N then [] else c :: c_str s'
  end.

Definition percent : N := 37.
Definition underscore : N := 95.

(** Case folding of LIKE: the 26 ASCII capitals only. *)
Definition sql_lower (c : N) : N :=
  if ((65 <=? c) && (c <=? 90))%N then (c + 32)%N else c.

(** One pattern character other than [%] against one character. *)
Definition like_char (c c2 : N) : bool :=
  (c =? underscore)%N || (sql_lower c =? sql_lower c2)%N.

(** [%] matches any run of characters, [_] any one character, every other
    character itself up to ASCII case.  There is no escape character. *)
Fixpoint pattern_compare (pat s : pystr) : bool :=
  match pat with
  | [] => match s with [] => true | _ => false end
  | c :: pat' =>
    if (c =? percent)%N then
      (fix from (s : pystr) : bool :=
         pattern_compare pat' s
         || match s with [] => false | _ :: s' => from s' end) s
    else
      match s with
      | [] => false
      | c2 :: s' => like_char c c2 && pattern_compare pat' s'
      end
  end.

(** The comparison of LIKE on two texts. *)
Definition like_match (pat s : pystr) : bool :=
  pattern_compare (c_str pat) (c_str s).

(** The integer a condition gives. *)
Definition of_bool (b : bool) : value := VInt (if b then 1 else 0).

(** The longest pattern LIKE accepts, in bytes. *)
Definition like_pattern_limit : N := 50000.

(** The LIKE function.  The size of the pattern is checked first, on the
    whole of its text and whatever the other operand is; a NULL operand
    then makes the result NULL. *)
Definition like_func (pat : pystr) (s : option pystr) : sql_result value :=
  if (like_pattern_limit <? utf8_length pat)%N then
    SqlErr (OperationalError "LIKE or GLOB pattern too complex")
  else
    SqlOk match s with
          | Some s => of_bool (like_match pat s)
          | None => VNull
          end.

(** *** Evaluation *)

Definition text_of (v : value) : option pystr :=
  match v with
  | VNull => None
  | VInt n => Some (str_of_Z n)
  | VText s => Some s
  end.

(** Comparison of two values of the same storage class; NULL makes the
    result NULL.  The statements of the program never compare an integer
    with a text. *)
Definition sql_eq (a b : value) : value :=
  match a, b with
  | VNull, _ | _, VNull => VNull
  | VInt x, VInt y => of_bool (x =? y)
  | VText x, VText y => of_bool (pystr_eqb x y)
  | _, _ => of_bool false
  end.

Definition sql_like (a pat : value) : sql_result value :=
  match text_of pat with
  | Some p => like_func p (text_of a)
  | None => SqlOk VNull
  end.

Definition sql_concat (a b : value) : value :=
  match text_of a, text_of b with
  | Some x, Some y => VText (app x y)
  | _, _ => VNull
  end.

(** A condition holds when it evaluates to a non-zero integer. *)
Definition truthy (v : value) : bool :=
  match v with
  | VInt n => negb (n =? 0)
  | _ => false
  end.

Definition eval_colref (sc : scope) (rows : list (list value)) (c : colref)
  : value :=
  match resolve sc c with
  | Some (ti, ci) => field ci (nth ti rows [])
  | None => VNull
  end.

(** The value of an expression on the rows at hand, one per table of the
    scope; LIKE is the one operation that can fail. *)
Fixpoint eval_expr (sc : scope) (rows : list (list value))
    (params : list value) (e : expr) : sql_result value :=
  match e with
  | EColumn c => SqlOk (eval_colref sc rows c)
  | EParam i => SqlOk (nth i params VNull)
  | ELit v => SqlOk v
  | EEq a b =>
    sql_bind (eval_expr sc rows params a) (fun x =>
    sql_bind (eval_expr sc rows params b) (fun y =>
    SqlOk (sql_eq x y)))
  | ELike a p =>
    sql_bind (eval_expr sc rows params a) (fun x =>
    sql_bind (eval_expr sc rows params p) (fun y =>
    sql_like x y))
  | EConcat a b =>
    sql_bind (eval_expr sc rows params a) (fun x =>
    sql_bind (eval_expr sc rows params b) (fun y =>
    SqlOk (sql_concat x y)))
  end.

(** *** SELECT *)

(** [SELECT sel_cols FROM sel_from [INNER JOIN t ON e] [WHERE e]]. *)
Record select := Select {
  sel_cols : list colref;
  sel_from : string;
  sel_join : option (string * expr);
  sel_where : option expr
}.

Definition lookup_table (db : database) (name : string) : sql_result table :=
  match db !! name with
  | Some t => SqlOk t
  | None => SqlErr (OperationalError ("no such table: " +:+ name))
  end.

Definition check_opt (sc : scope) (e : option expr) : sql_result unit :=
  match e with
  | Some e => check_expr sc e
  | None => SqlOk tt
  end.

Definition holds_opt (sc : scope) (rows : list (list value))
    (params : list value) (e : option expr) : sql_result bool :=
  match e with
  | Some e => sql_bind (eval_expr sc rows params e) (fun v => SqlOk (truthy v))
  | None => SqlOk true
  end.

(** The tables an expression reads, by their position in the scope. *)
Fixpoint tables_read (sc : scope) (e : expr) : list nat :=
  match e with
  | EColumn c =>
    match resolve sc c with
    | Some (ti, _) => [ti]
    | None => []
    end
  | EParam _ | ELit _ => []
  | EEq a b | ELike a b | EConcat a b =>
    app (tables_read sc a) (tables_read sc b)
  end.

(** A condition on the columns of table [ti] and of no other table. *)
Definition restricts (sc : scope) (ti : nat) (e : option expr) : bool :=
  match e with
  | Some e =>
    match tables_read sc e with
    | [] => false
    | tis => forallb (Nat.eqb ti) tis
    end
  | None => false
  end.

(** One loop over the rows [rs] of a table.  [rows_of r] is [r] together
    with the row at hand of the other table, if there is one.  A row passes
    when ON holds and, where [test_where] asks for it, WHERE holds too. *)
Fixpoint scan (q : select) (sc : scope) (params : list value)
    (rows_of : list value -> list (list value)) (test_where : bool)
    (rs : list (list value)) : sql_result (list (list value)) :=
  match rs with
  | [] => SqlOk []
  | r :: rs' =>
    sql_bind (holds_opt sc (rows_of r) params (snd <$> sel_join q)) (fun on =>
    sql_bind (if on && test_where
              then holds_opt sc (rows_of r) params (sel_where q)
              else SqlOk on) (fun keep =>
    sql_bind (scan q sc params rows_of test_where rs') (fun out =>
    SqlOk (if keep
           then map (eval_colref sc (rows_of r)) (sel_cols q) :: out
           else out))))
  end.

(** The two nested loops of a join.  [joined_first] tells which table is
    in the outer loop; with [early], WHERE reads the outer table alone and
    is tested on each of its rows before the inner loop is entered. *)
Fixpoint nested (q : select) (sc : scope) (params : list value)
    (joined_first early : bool) (outer inner : list (list value))
  : sql_result (list (list value)) :=
  match outer with
  | [] => SqlOk []
  | ro :: outer' =>
    let rows_of := fun ri => if joined_first then [ri; ro] else [ro; ri] in
    sql_bind (if early then holds_opt sc (rows_of []) params (sel_where q)
              else SqlOk true) (fun go =>
    sql_bind (if go then scan q sc params rows_of (negb early) inner
              else SqlOk []) (fun out =>
    sql_bind (nested q sc params joined_first early outer' inner)
             (fun rest =>
    SqlOk (app out rest))))
  end.

(** A prepared SELECT: the tables it reads and their scope, all names
    resolved. *)
Record plan := Plan {
  p_from : table;
  p_joined : option table;
  p_scope : scope
}.

Definition prepare_select (q : select) (db : database) : sql_result plan :=
  sql_bind (lookup_table db (sel_from q)) (fun t1 =>
  sql_bind
    (match sel_join q with
     | Some (name, _) =>
       sql_bind (lookup_table db name) (fun t2 => SqlOk [(name, t2)])
     | None => SqlOk []
     end) (fun joined =>
  let sc : scope :=
    (sel_from q, t_cols t1) :: map (fun '(n, t) => (n, t_cols t)) joined in
  sql_bind (check_colrefs sc (sel_cols q)) (fun _ =>
  sql_bind (check_opt sc (snd <$> sel_join q)) (fun _ =>
  sql_bind (check_opt sc (sel_where q)) (fun _ =>
  SqlOk (Plan t1 (snd <$> head joined) sc)))))).

(** Running the prepared SELECT on the bound values: one output row per
    combination of source rows that passes ON and WHERE.  A statement on
    one table is one loop over it.  A join is two nested loops in the order
    the engine's planner takes for the statements of the program: the table
    that WHERE restricts by itself is scanned in the outer loop and tested
    against WHERE row by row, and the other table is searched for the
    partners of each row that passes; without such a restriction the FROM
    table is the outer one. *)
Definition step_select (q : select) (p : plan) (params : list value)
  : sql_result (list (list value)) :=
  let sc := p_scope p in
  match p_joined p with
  | None => scan q sc params (fun r => [r]) true (t_rows (p_from p))
  | Some t2 =>
    if restricts sc 1 (sel_where q) then
      nested q sc params true true (t_rows t2) (t_rows (p_from p))
    else
      nested q sc params false (restricts sc 0 (sel_where q))
             (t_rows (p_from p)) (t_rows t2)
  end.

End Sql.
Export Sql.

(** ** The Python side: values, exceptions, the world *)

Module Py.

Inductive pyval :=
| PNone
| PInt (n : Z)
| PStr (s : pystr).

#[global] Instance pyval_eq_dec : EqDecision pyval.
Proof. solve_decision. Defined.

Inductive exn :=
| SqliteError (e : sql_error)
| OverflowError
| IndexError
| TypeError
| AttributeError (attr : string)
| SystemExit (code : Z).

Inductive outcome (A : Type) :=
| Ok (a : A)
| Raise (e : exn).
Arguments Ok {A} a.
Arguments Raise {A} e.

(** What a run can see and change: the database files by path, the lines
    printed so far, and the working directory. *)
Record world := World {
  fs : gmap pystr database;
  stdout : list pystr;
  cwd : pystr
}.

Definition M (A : Type) : Type := world -> outcome A * world.

Definition ret {A} (a : A) : M A := fun w => (Ok a, w).

Definition raise {A} (e : exn) : M A := fun w => (Raise e, w).

Definition bind {A B} (m : M A) (k : A -> M B) : M B :=
  fun w =>
    match m w with
    | (Ok a, w') => k a w'
    | (Raise e, w') => (Raise e, w')
    end.

Notation "'do' x <- m ; k" := (bind m (fun x => k))
  (at level 10, x pattern, m at level 100, k at level 200,
   format "'[v' 'do'  x  <-  m ; '/' k ']'").
Notation "m ;; k" := (bind m (fun _ => k))
  (at level 100, k at level 200, right associativity).

Fixpoint for_each {A B} (f : A -> M B) (l : list A) : M (list B) :=
  match l with
  | [] => ret []
  | a :: l' => do b <- f a; do bs <- for_each f l'; ret (b :: bs)
  end.

Definition print (line : pystr) : M unit :=
  fun w => (Ok tt, World (fs w) (stdout w ++ [line]) (cwd w)).

(** *** The sqlite3 binding *)

(** A Python value bound to a [?].  An [int] has to fit the engine's
    INTEGER, which has 64 bits: "Python int too large to convert to SQLite
    INTEGER" otherwise. *)
Definition bind_param (v : pyval) : M value :=
  match v with
  | PNone => ret VNull
  | PInt n =>
    if (n <? - 2 ^ 63) || (2 ^ 63 - 1 <? n) then raise OverflowError
    else ret (VInt n)
  | PStr s => ret (VText s)
  end.

Definition to_py (v : value) : pyval :=
  match v with
  | VNull => PNone
  | VInt n => PInt n
  | VText s => PStr s
  end.

(** A connection holds its own view of the database.  [conn_in_tx] tells
    whether a transaction is open, i.e. whether the view has changes the
    file does not have yet. *)
Record connection := Connection {
  conn_path : pystr;
  conn_db : database;
  conn_in_tx : bool
}.

Definition database_at (w : world) (path : pystr) : database :=
  default ∅ (fs w !! path).

Definition connect (path : pystr) : M connection :=
  fun w => (Ok (Connection path (database_at w path) false), w).

Definition write_file (path : pystr) (db : database) : M unit :=
  fun w => (Ok tt, World (<[path := db]> (fs w)) (stdout w) (cwd w)).

(** A CREATE TABLE is not preceded by an implicit BEGIN: outside a
    transaction it is written at once. *)
Definition execute_create (conn : connection) (name : string)
    (cols : list column) (fks : list foreign_key) : M connection :=
  let db := create_table_if_not_exists name cols fks (conn_db conn) in
  if conn_in_tx conn then ret (Connection (conn_path conn) db true)
  else write_file (conn_path conn) db ;;
       ret (Connection (conn_path conn) db false).

(** [cursor.execute] prepares the statement, binds the parameters in
    order, and runs it.

    An INSERT opens a transaction if none is open; its effect stays in the
    connection until [commit].  The result carries [cursor.lastrowid]. *)
Definition execute_insert (conn : connection) (tname : string)
    (cols : list string) (params : list pyval) : M (connection * Z) :=
  match prepare_insert tname cols (conn_db conn) with
  | SqlErr e => raise (SqliteError e)
  | SqlOk stmt =>
    do vals <- for_each bind_param params;
    match step_insert tname cols stmt vals (conn_db conn) with
    | SqlOk (db, rowid) => ret (Connection (conn_path conn) db true, rowid)
    | SqlErr e => raise (SqliteError e)
    end
  end.

(** A SELECT; the result is what [fetchall] returns. *)
Definition execute_select (conn : connection) (q : select)
    (params : list pyval) : M (list (list pyval)) :=
  match prepare_select q (conn_db conn) with
  | SqlErr e => raise (SqliteError e)
  | SqlOk stmt =>
    do vals <- for_each bind_param params;
    match step_select q stmt vals with
    | SqlOk rows => ret (map (map to_py) rows)
    | SqlErr e => raise (SqliteError e)
    end
  end.

Definition fetchone (rows : list (list pyval)) : option (list pyval) :=
  head rows.

Definition commit (conn : connection) : M connection :=
  if conn_in_tx conn then
    write_file (conn_path conn) (conn_db conn) ;;
    ret (Connection (conn_path conn) (conn_db conn) false)
  else ret conn.

(** Closing drops the connection's view, and with it what was not
    committed. *)
Definition close (conn : connection) : M unit := ret tt.

(** [row[i]] *)
Definition item (row : list pyval) (i : nat) : M pyval :=
  match row !! i with
  | Some v => ret v
  | None => raise IndexError
  end.

End Py.
Export Py.

(** ** The program *)

Module Idd1.

(** *** display_workers *)

Inductive align := AlignLeft | AlignCenter.

Definition spaces (n : nat) : pystr := replicate n 32%N.

(** [format(s, "<w")] and [format(s, "^w")] on a string: a centred field
    has the odd space on the right. *)
Definition pad (a : align) (width : nat) (s : pystr) : pystr :=
  let n := (width - length s)%nat in
  match a with
  | AlignLeft => app s (spaces n)
  | AlignCenter =>
    app (spaces (n / 2)%nat) (app s (spaces (n - n / 2)%nat))
  end.

(** One replacement field [{:<w}] or [{:^w}].  [None] has no such
    format. *)
Definition format_field (a : align) (width : nat) (v : pyval) : M pystr :=
  match v with
  | PStr s => ret (pad a width s)
  | PInt n => ret (pad a width (str_of_Z n))
  | PNone => raise TypeError
  end.

Definition line : pystr :=
  concat [str "+-"; repeat_str (str "-") 4; str "-+-";
          repeat_str (str "-") 30; str "-+-"; repeat_str (str "-") 15;
          str "-+-"; repeat_str (str "-") 15; str "-+"].

Definition format_row (a0 a1 a2 a3 : align) (v0 v1 v2 v3 : pyval)
  : M pystr :=
  do f0 <- format_field a0 4 v0;
  do f1 <- format_field a1 30 v1;
  do f2 <- format_field a2 15 v2;
  do f3 <- format_field a3 15 v3;
  ret (concat [str "| "; f0; str " | "; f1; str " | "; f2; str " | "; f3;
               str " |"]).

(** [worker.get(key, "")] *)
Definition get (worker : gmap string pyval) (key : string) : pyval :=
  default (PStr []) (worker !! key).

Fixpoint display_rows (idx : Z) (people : list (gmap string pyval))
  : M unit :=
  match people with
  | [] => ret tt
  | worker :: rest =>
    do row <- format_row AlignCenter AlignLeft AlignLeft AlignLeft
                (PInt idx) (get worker "name") (get worker "number")
                (get worker "birthday");
    print row ;;
    print line ;;
    display_rows (idx + 1) rest
  end.

Definition empty_message : pystr := str "Список пуст.".

Definition display_workers (people : list (gmap string pyval)) : M unit :=
  match people with
  | _ :: _ =>
    print line ;;
    do header <- format_row AlignCenter AlignCenter AlignCenter AlignCenter
                   (PStr (str "№")) (PStr (str "Фамилия и имя"))
                   (PStr (str "Номер")) (PStr (str "День рождения"));
    print header ;;
    print line ;;
    display_rows 1 people
  | [] => print empty_message
  end.

(** *** create_db *)

Definition numbers_columns : list column :=
  [ Column "human_id" INTEGER true false;
    Column "phone_number" INTEGER false true ].

Definition people_columns : list column :=
  [ Column "human_id" INTEGER true false;
    Column "human_name" TEXT false true;
    Column "human_bd" TEXT false true ].

Definition people_foreign_keys : list foreign_key :=
  [ ForeignKey "human_id" "numbers" "human_id" ].

Definition create_db (database_path : pystr) : M unit :=
  do conn <- connect database_path;
  do conn <- execute_create conn "numbers" numbers_columns [];
  do conn <- execute_create conn "people" people_columns
               people_foreign_keys;
  close conn.

(** *** add_worker *)

(** [SELECT human_id FROM people WHERE human_name = ?] *)
Definition select_person : select :=
  Select [ColRef None "human_id"] "people" None
    (Some (EEq (EColumn (ColRef None "human_name")) (EParam 0))).

(** [number] is an [int], or [None] when [--number] was not given. *)
Definition py_number (number : option Z) : pyval :=
  match number with
  | Some n => PInt n
  | None => PNone
  end.

Definition add_worker (database_path : pystr) (name : pystr)
    (number : option Z) (birthday : pystr) : M unit :=
  do conn <- connect database_path;
  do rows <- execute_select conn select_person [PStr name];
  do (conn, worker_id) <-
    match fetchone rows with
    | None =>
      do (conn, lastrowid) <-
        execute_insert conn "people" ["human_name"; "human_bd"]
          [PStr name; PStr birthday];
      ret (conn, PInt lastrowid)
    | Some row =>
      do id <- item row 0;
      ret (conn, id)
    end;
  do (conn, _) <-
    execute_insert conn "numbers" ["human_id"; "phone_number"]
      [worker_id; py_number number];
  do conn <- commit conn;
  close conn.

(** *** select_all and find_worker *)

Definition join_on : expr :=
  EEq (EColumn (ColRef (Some "people") "human_id"))
      (EColumn (ColRef (Some "numbers") "human_id")).

(** [SELECT people.human_name, people.human_bd, numbers.phone
     FROM numbers INNER JOIN people
     ON people.human_id = numbers.human_id] *)
Definition select_all_query : select :=
  Select [ColRef (Some "people") "human_name";
          ColRef (Some "people") "human_bd";
          ColRef (Some "numbers") "phone"]
    "numbers" (Some ("people", join_on)) None.

(** [SELECT people.human_name, people.human_bd, numbers.phone_number
     FROM numbers INNER JOIN people
     ON people.human_id = numbers.human_id
     WHERE people.human_name LIKE ? || '%'] *)
Definition find_worker_query : select :=
  Select [ColRef (Some "people") "human_name";
          ColRef (Some "people") "human_bd";
          ColRef (Some "numbers") "phone_number"]
    "numbers" (Some ("people", join_on))
    (Some (ELike (EColumn (ColRef (Some "people") "human_name"))
                 (EConcat (EParam 0) (ELit (VText (str "%")))))).

(** The dictionary built from one result row. *)
Definition record (name birthday number : pyval) : gmap string pyval :=
  <["name" := name]> (<["birthday" := birthday]>
    (<["number" := number]> ∅)).

Definition record_of_row (row : list pyval) : M (gmap string pyval) :=
  do name <- item row 0;
  do birthday <- item row 1;
  do number <- item row 2;
  ret (record name birthday number).

Definition select_all (database_path : pystr)
  : M (list (gmap string pyval)) :=
  do conn <- connect database_path;
  do rows <- execute_select conn select_all_query [];
  close conn ;;
  for_each record_of_row rows.

Definition find_worker (database_path : pystr) (name : pystr)
  : M (list (gmap string pyval)) :=
  do conn <- connect database_path;
  do rows <- execute_select conn find_worker_query [PStr name];
  close conn ;;
  if Nat.eqb (length rows) 0 then ret []
  else for_each record_of_row rows.

(** *** The command line

    [argparse] is modelled on the plain form of an invocation: a
    subcommand followed by options, every option written with one of its
    declared option strings and followed by its value as a separate
    argument.  Other spellings (abbreviated options, [--opt=value],
    [-h], values that start with a dash, integers not written as plain
    digits) are outside the model: [parse_args] answers [None] for
    them. *)

Abbreviation namespace := (gmap string pyval).

Inductive arg_type := AsStr | AsInt.

(** One [add_argument] call: option strings, destination attribute,
    [type], [required] and [default]. *)
Record argument := Argument {
  option_strings : list pystr;
  dest : string;
  arg_ty : arg_type;
  required : bool;
  arg_default : pyval
}.

Definition path_join (dir name : pystr) : pystr :=
  if pystr_eqb dir (str "/") then app dir name
  else app dir (app (str "/") name).

(** [file_parser]: the parent parser holding [--db], whose default is
    [str(Path.cwd() / "workers.db")]. *)
Definition file_parser (cwd : pystr) : list argument :=
  [ Argument [str "--db"] "db" AsStr false
      (PStr (path_join cwd (str "workers.db"))) ].

Definition add_arguments (cwd : pystr) : list argument :=
  file_parser cwd ++
  [ Argument [str "-na"; str "--name"] "name" AsStr true PNone;
    Argument [str "-n"; str "--number"] "number" AsInt false PNone;
    Argument [str "-bd"; str "--birthday"] "birthday" AsStr true PNone ].

Definition display_arguments (cwd : pystr) : list argument :=
  file_parser cwd.

Definition find_arguments (cwd : pystr) : list argument :=
  file_parser cwd ++
  [ Argument [str "-n"; str "--name"] "name" AsStr true PNone ].

(** The subparsers registered under [dest="command"]. *)
Definition subparsers (cwd : pystr) : list (pystr * list argument) :=
  [ (str "add", add_arguments cwd);
    (str "display", display_arguments cwd);
    (str "find", find_arguments cwd) ].

Definition starts_with_dash (s : pystr) : bool :=
  match s with
  | c :: _ => (c =? 45)%N
  | [] => false
  end.

Definition is_digit (c : N) : bool := ((48 <=? c) && (c <=? 57))%N.

Definition digits_value (s : pystr) : Z :=
  fold_left (fun acc c => 10 * acc + (Z.of_N c - 48)) s 0.

(** [type(value)] on a plain argument. *)
Definition convert (ty : arg_type) (s : pystr) : option pyval :=
  match ty with
  | AsStr => Some (PStr s)
  | AsInt =>
    match s with
    | [] => None
    | _ => if forallb is_digit s then Some (PInt (digits_value s)) else None
    end
  end.

Definition find_argument (args : list argument) (opt : pystr)
  : option argument :=
  snd <$> list_find (fun a => opt ∈ option_strings a) args.

Inductive parse :=
| Unmodelled                  (* a spelling outside the model *)
| UsageError                  (* [parser.error]: exit status 2 *)
| Args (ns : namespace).

(** Options of a subcommand, left to right; a later occurrence of an
    option replaces an earlier one. *)
Fixpoint parse_options (args : list argument) (tokens : list pystr)
    (ns : namespace) : parse :=
  match tokens with
  | [] => Args ns
  | opt :: rest =>
    match find_argument args opt with
    | None => Unmodelled
    | Some a =>
      match rest with
      | [] => UsageError        (* expected one argument *)
      | v :: rest' =>
        if starts_with_dash v then Unmodelled
        else
          match convert (arg_ty a) v with
          | Some pv => parse_options args rest' (<[dest a := pv]> ns)
          | None => Unmodelled
          end
      end
    end
  end.

Definition missing_required (args : list argument) (ns : namespace) : bool :=
  existsb (fun a => required a && bool_decide (ns !! dest a = None)) args.

(** Attributes not given on the command line receive their defaults. *)
Definition with_defaults (args : list argument) (ns : namespace)
  : namespace :=
  foldr (fun a ns =>
           match ns !! dest a with
           | Some _ => ns
           | None => <[dest a := arg_default a]> ns
           end) ns args.

Definition version_text : pystr := str "people 0.1.0".

Definition find_subparser (cwd : pystr) (cmd : pystr)
  : option (list argument) :=
  (fun r => snd (snd r))
    <$> list_find (fun sp => fst sp = cmd) (subparsers cwd).

(** [parser.parse_args(command_line)].  The result is [None] outside the
    modelled spellings; otherwise it is the namespace, or the exit the
    parser takes ([--version]: status 0 after printing; usage error:
    status 2, message on the error stream). *)
Definition parse_args (cwd : pystr) (command_line : list pystr)
  : option (M namespace) :=
  match command_line with
  | [] =>
    (* no subcommand: only the top-level parser has run, and its single
       attribute is the [dest] of the subparsers *)
    Some (ret (<["command" := PNone]> ∅))
  | cmd :: rest =>
    if starts_with_dash cmd then
      if pystr_eqb cmd (str "--version") && bool_decide (rest = []) then
        Some (print version_text ;; raise (SystemExit 0))
      else None
    else
      match find_subparser cwd cmd with
      | None => Some (raise (SystemExit 2))      (* invalid choice *)
      | Some args =>
        match parse_options args rest ∅ with
        | Unmodelled => None
        | UsageError => Some (raise (SystemExit 2))
        | Args ns =>
          if missing_required args ns then Some (raise (SystemExit 2))
          else Some (ret (<["command" := PStr cmd]> (with_defaults args ns)))
        end
      end
  end.

(** *** main *)

(** [args.attr] *)
Definition getattr (args : namespace) (attr : string) : M pyval :=
  match args !! attr with
  | Some v => ret v
  | None => raise (AttributeError attr)
  end.

(** A value used where the callee takes a [str] (a path, a name). *)
Definition as_str (v : pyval) : M pystr :=
  match v with
  | PStr s => ret s
  | _ => raise TypeError
  end.

Definition as_number (v : pyval) : M (option Z) :=
  match v with
  | PInt n => ret (Some n)
  | PNone => ret None
  | PStr _ => raise TypeError
  end.

Definition is_command (v : pyval) (name : string) : bool :=
  bool_decide (v = PStr (str name)).

(** The body of [main] after [parse_args]: lines 256 to 268. *)
Definition dispatch (args : namespace) : M unit :=
  do db <- getattr args "db";
  do db_path <- as_str db;
  create_db db_path ;;
  do command <- getattr args "command";
  if is_command command "add" then
    do name <- getattr args "name";
    do number <- getattr args "number";
    do birthday <- getattr args "birthday";
    do name <- as_str name;
    do number <- as_number number;
    do birthday <- as_str birthday;
    add_worker db_path name number birthday
  else if is_command command "display" then
    do people <- select_all db_path;
    display_workers people
  else if is_command command "find" then
    do name <- getattr args "name";
    do name <- as_str name;
    do people <- find_worker db_path name;
    display_workers people
  else ret tt.

Definition main (command_line : list pystr) (w : world)
  : option (outcome unit * world) :=
  match parse_args (cwd w) command_line with
  | Some parsed => Some ((do args <- parsed; dispatch args) w)
  | None => None
  end.

(** The status the process ends with. *)
Definition exit_status (r : outcome unit) : Z :=
  match r with
  | Ok _ => 0
  | Raise (SystemExit code) => code
  | Raise _ => 1
  end.

End Idd1.
Export Idd1.


(** ** Database states of the two-table schema *)

Module Store.

(** A row of [people] and a row of [numbers], as their column types make
    them.  [phone_owner] is the column [numbers.human_id]. *)
Record person := Person {
  person_id : Z;
  person_name : pystr;
  person_birthday : pystr
}.

Record phone := Phone {
  phone_owner : Z;
  phone_value : Z
}.

#[global] Instance person_eq_dec : EqDecision person.
Proof. solve_decision. Defined.
#[global] Instance phone_eq_dec : EqDecision phone.
Proof. solve_decision. Defined.

(** A database state: the rows of both tables in scan order and the two
    [sqlite_sequence] counters. *)
Record store := Store {
  people : list person;
  numbers : list phone;
  people_seq : Z;
  numbers_seq : Z
}.

Definition person_row (p : person) : list value :=
  [VInt (person_id p); VText (person_name p); VText (person_birthday p)].

Definition phone_row (n : phone) : list value :=
  [VInt (phone_owner n); VInt (phone_value n)].

Definition people_table (st : store) : table :=
  Table people_columns people_foreign_keys
        (map person_row (people st)) (people_seq st).

Definition numbers_table (st : store) : table :=
  Table numbers_columns [] (map phone_row (numbers st)) (numbers_seq st).

Definition db_of (st : store) : database :=
  <["people" := people_table st]> (<["numbers" := numbers_table st]> ∅).

(** The world [w] with the file at [path] holding the state [st]. *)
Definition world_of (st : store) (path : pystr) (w : world) : world :=
  World (<[path := db_of st]> (fs w)) (stdout w) (cwd w).

(** The world [w] with no file at [path]. *)
Definition world_without (path : pystr) (w : world) : world :=
  World (delete path (fs w)) (stdout w) (cwd w).

Definition empty_store : store := Store [] [] 0 0.

(** Every person joined with every phone number via the person id: person
    by person, each with the phone rows that carry the person's id. *)
Definition joined (st : store) : list (person * phone) :=
  p ← people st;
  n ← numbers st;
  if person_id p =? phone_owner n then [(p, n)] else [].

(** The flat record [{name, birthday, number}]: a dictionary of exactly
    these three keys, a string under the first two and an integer under the
    third. *)
Definition flat_record (name birthday : pystr) (number : Z)
  : gmap string pyval :=
  list_to_map [("name", PStr name); ("birthday", PStr birthday);
               ("number", PInt number)].

(** The flat record of a joined pair. *)
Definition record_of (pn : person * phone) : gmap string pyval :=
  flat_record (person_name (fst pn)) (person_birthday (fst pn))
              (phone_value (snd pn)).

Definition records_where (f : pystr -> bool) (st : store)
  : list (gmap string pyval) :=
  map record_of (filter (fun pn => f (person_name (fst pn)) = true)
                        (joined st)).

Definition all_records (st : store) : list (gmap string pyval) :=
  map record_of (joined st).




(** What [find_worker] asks of a name: [name LIKE query || '%']. *)
Definition name_matches (query name : pystr) : bool :=
  like_match (app query (str "%")) name.

(** A query whose pattern, the query and one more byte, is within the
    50000 bytes LIKE accepts. *)
Definition short (query : pystr) : bool :=
  (utf8_length query <? 50000)%N.

(** An integer of 64 bits. *)
Definition in_range (n : Z) : bool :=
  (- 2 ^ 63 <=? n) && (n <? 2 ^ 63).

Definition has_name (name : pystr) (p : person) : bool :=
  pystr_eqb (person_name p) name.

Definition has_owner (id : Z) (n : phone) : bool :=
  phone_owner n =? id.

(** The id AUTOINCREMENT gives the next person. *)
Definition next_person_id (st : store) : Z :=
  Z.max (people_seq st) (foldr Z.max 0 (map person_id (people st))) + 1.

(** Every phone number belongs to a person of the store. *)
Definition linked (st : store) : bool :=
  forallb (fun n => existsb (fun p => person_id p =? phone_owner n)
                            (people st))
          (numbers st).

(** Every person has a phone number. *)
Definition reachable_by_phone (st : store) : bool :=
  forallb (fun p => existsb (has_owner (person_id p)) (numbers st))
          (people st).

(** The state after the INSERT into [people]. *)
Definition add_person (st : store) (name birthday : pystr) : store :=
  Store (people st ++ [Person (next_person_id st) name birthday])
        (numbers st) (next_person_id st) (numbers_seq st).

(** A phone row put at its place in row-id order. *)
Fixpoint place_phone (n : phone) (l : list phone) : list phone :=
  match l with
  | [] => [n]
  | m :: l' =>
    if phone_owner n <? phone_owner m then n :: m :: l'
    else m :: place_phone n l'
  end.

(** The state after the INSERT of [(id, n)] into [numbers]. *)
Definition attach (st : store) (id n : Z) : store :=
  Store (people st) (place_phone (Phone id n) (numbers st))
        (people_seq st) (Z.max (numbers_seq st) id).

(** The person [add_worker] gives the number to: the first one of that
    name, or a new one. *)
Definition owner_of (st : store) (name : pystr) : Z :=
  match find (has_name name) (people st) with
  | Some p => person_id p
  | None => next_person_id st
  end.

Definition with_person (st : store) (name birthday : pystr) : store :=
  match find (has_name name) (people st) with
  | Some _ => st
  | None => add_person st name birthday
  end.

Definition unique_failed : exn :=
  SqliteError (IntegrityError "UNIQUE constraint failed: numbers.human_id").

Definition not_null_failed : exn :=
  SqliteError
    (IntegrityError "NOT NULL constraint failed: numbers.phone_number").

Definition no_such_column : exn :=
  SqliteError (OperationalError "no such column: numbers.phone").

Definition database_full : exn :=
  SqliteError (OperationalError "database or disk is full").

Definition pattern_too_complex : exn :=
  SqliteError (OperationalError "LIKE or GLOB pattern too complex").

(** What stops [add_worker] before the number plays any part.  For a new
    name it is the exhaustion of the person ids: none is left once the
    largest, 2^63 - 1, has been given out.  For a stored name it would be an
    id outside 64 bits, which no file can hold. *)
Definition id_error (st : store) (name : pystr) : option exn :=
  match find (has_name name) (people st) with
  | Some p => if in_range (person_id p) then None else Some OverflowError
  | None => if 2 ^ 63 <=? next_person_id st then Some database_full else None
  end.

(** The exception a call of [add_worker] ends with, if any. *)
Definition add_error (st : store) (name : pystr) (number : option Z)
  : option exn :=
  match id_error st name with
  | Some e => Some e
  | None =>
    match number with
    | None => Some not_null_failed
    | Some n =>
      if negb (in_range n) then Some OverflowError
      else if existsb (has_owner (owner_of st name)) (numbers st)
           then Some unique_failed
           else None
    end
  end.

(** The state a call of [add_worker] leaves in the file. *)
Definition after_add (st : store) (name : pystr) (number : option Z)
    (birthday : pystr) : store :=
  match add_error st name number, number with
  | None, Some n => attach (with_person st name birthday) (owner_of st name) n
  | _, _ => st
  end.

(** The states the program can bring a new file into. *)
Inductive reachable : store -> Prop :=
| reachable_empty : reachable empty_store
| reachable_add st name number birthday :
    reachable st -> reachable (after_add st name number birthday).

(** Both CREATE TABLE IF NOT EXISTS statements of [create_db]. *)
Definition ensure_schema (db : database) : database :=
  create_table_if_not_exists "people" people_columns people_foreign_keys
    (create_table_if_not_exists "numbers" numbers_columns [] db).

(** [m] run [n] times in a row. *)
Fixpoint times (n : nat) (m : M unit) : M unit :=
  match n with
  | O => ret tt
  | S n' => m ;; times n' m
  end.

(** The scopes and result rows of the program's two working queries. *)
Definition find_scope : scope :=
  [("numbers", numbers_columns); ("people", people_columns)].

Definition find_row (pn : person * phone) : list value :=
  [VText (person_name (fst pn)); VText (person_birthday (fst pn));
   VInt (phone_value (snd pn))].

End Store.
Export Store.

(** ** Sample runs *)

Module Samples.

Definition fresh_world : world := World ∅ [] (str "/home/user").

Definition default_db : pystr := str "/home/user/workers.db".

Definition add_ann_lee : list pystr :=
  [str "add"; str "--name"; str "Ann Lee"; str "--number"; str "555";
   str "--birthday"; str "1990-01-01"].

Definition ann_store : store :=
  Store [Person 1 (str "Ann Lee") (str "1990-01-01")] [Phone 1 555] 1 1.

Definition names_store : store :=
  Store [Person 1 (str "Smith") (str "1980-01-01");
         Person 2 (str "Jones") (str "1981-02-02");
         Person 3 (str "smith") (str "1982-03-03")]
        [Phone 1 100; Phone 2 200; Phone 3 300] 3 3.


End Samples.
Export Samples.

(** ** Further notions: the printed table, runs of calls, well-kept data *)

Module Further.

(** *** The printed table *)

(** The text a replacement field shows for a value that has one. *)
Definition shown (v : pyval) : pystr :=
  match v with
  | PStr s => s
  | PInt n => str_of_Z n
  | PNone => []
  end.

(** No value of the record is [None].  A key the record lacks is no
    obstacle: [get] then gives the empty string. *)
Definition printable (worker : gmap string pyval) : bool :=
  forallb (fun key => negb (bool_decide (get worker key = PNone)))
          ["name"; "number"; "birthday"].

(** The header row as [display_workers] formats it. *)
Definition header_line : pystr :=
  str "|  №   |         Фамилия и имя          |      Номер      |  День рождения  |".

(** The row of a printable record under the index [idx]. *)
Definition row_line (idx : Z) (worker : gmap string pyval) : pystr :=
  concat [str "| "; pad AlignCenter 4 (str_of_Z idx); str " | ";
          pad AlignLeft 30 (shown (get worker "name")); str " | ";
          pad AlignLeft 15 (shown (get worker "number")); str " | ";
          pad AlignLeft 15 (shown (get worker "birthday")); str " |"].

(** Row and border for each record, the index counting up from [idx]. *)
Fixpoint table_rows (idx : Z) (people : list (gmap string pyval))
  : list pystr :=
  match people with
  | [] => []
  | worker :: rest => row_line idx worker :: line :: table_rows (idx + 1) rest
  end.

(** The world after the lines [out] were printed. *)
Definition printed (w : world) (out : list pystr) : world :=
  World (fs w) (stdout w ++ out) (cwd w).

(** Every value of the record is no wider than its column. *)
Definition fits (worker : gmap string pyval) : bool :=
  (length (shown (get worker "name")) <=? 30)%nat
  && (length (shown (get worker "number")) <=? 15)%nat
  && (length (shown (get worker "birthday")) <=? 15)%nat.

(** *** Numerals *)


(** *** Errors and states *)

Definition no_such_table (name : string) : exn :=
  SqliteError (OperationalError ("no such table: " +:+ name)).


(** The join of two row lists, as [joined] takes it of a state. *)
Definition pairs (ps : list person) (ns : list phone)
  : list (person * phone) :=
  p ← ps; n ← ns; if person_id p =? phone_owner n then [(p, n)] else [].

(** *** Runs of calls *)

(** The arguments of one call of [add_worker]: name, number, birthday. *)
Definition call : Type := pystr * option Z * pystr.

(** The world after [create_db] on a path without a file and then the
    calls of [add_worker] in turn, whether they return or raise. *)
Definition after_calls (path : pystr) (calls : list call) (w : world)
  : world :=
  foldl (fun w' (c : call) =>
           snd (add_worker path (fst (fst c)) (snd (fst c)) (snd c) w'))
        (snd (create_db path (world_without path w))) calls.

(** Well-kept data: the person ids count up from 1, the phone rows carry
    the same ids in the same order (so every person has exactly one
    number), no name is stored twice, and both counters stand at the number
    of people. *)
Record tidy (st : store) : Prop := Tidy {
  tidy_ids :
    map person_id (people st)
    = map Z.of_nat (seq 1 (length (people st)));
  tidy_owners : map phone_owner (numbers st) = map person_id (people st);
  tidy_names : NoDup (map person_name (people st));
  tidy_people_seq : people_seq st = Z.of_nat (length (people st));
  tidy_numbers_seq : numbers_seq st = Z.of_nat (length (people st))
}.

(** Three calls: Ann Lee, Bob Ray, and Ann Lee with a second number. *)
Definition three_calls : list call :=
  [ (str "Ann Lee", Some 555, str "1990-01-01");
    (str "Bob Ray", Some 777, str "1991-02-03");
    (str "Ann Lee", Some 556, str "1990-01-01") ].

(** *** The declared options, by name *)


Definition name_arg_add : argument :=
  Argument [str "-na"; str "--name"] "name" AsStr true PNone.


Definition birthday_arg : argument :=
  Argument [str "-bd"; str "--birthday"] "birthday" AsStr true PNone.

(** *** More sample data *)

Definition ann_record : gmap string pyval :=
  record (PStr (str "Ann Lee")) (PStr (str "1990-01-01")) (PInt 555).

Definition nameless_record : gmap string pyval :=
  record PNone (PStr (str "1990-01-01")) (PInt 555).

Definition other_db : pystr := str "/home/user/other.db".

End Further.
Export Further.

(** * Properties *)

#[local] Arguments str : simpl never.
#[local] Arguments like_match : simpl never.
#[local] Arguments pystr_eqb : simpl never.

(** ** The engine on a state of the schema *)

Section Engine.

Context (st : store).

Lemma db_of_people : db_of st !! "people" = Some (people_table st).
Proof. unfold db_of. apply lookup_insert_eq. Qed.

Lemma db_of_numbers : db_of st !! "numbers" = Some (numbers_table st).
Proof.
  unfold db_of. rewrite lookup_insert_ne by done. apply lookup_insert_eq.
Qed.

Lemma db_of_set_people t :
  <["people" := t]> (db_of st)
  = <["people" := t]> (<["numbers" := numbers_table st]> ∅).
Proof. unfold db_of. apply insert_insert_eq. Qed.

Lemma db_of_set_numbers t :
  <["numbers" := t]> (db_of st)
  = <["people" := people_table st]> (<["numbers" := t]> ∅).
Proof.
  unfold db_of. rewrite insert_insert_ne by done. by rewrite insert_insert_eq.
Qed.

Lemma dom_db_of : dom (db_of st) = {["people"; "numbers"]}.
Proof. unfold db_of. rewrite !dom_insert_L, dom_empty_L. set_solver. Qed.

End Engine.

Lemma truthy_of_bool b : truthy (of_bool b) = b.
Proof. by destruct b. Qed.

(** Opens [prepare_select] on a state of the schema. *)
Ltac open_select :=
  unfold prepare_select, lookup_table;
  cbn [select_person select_all_query find_worker_query
       sel_from sel_join sel_cols sel_where];
  rewrite ?db_of_numbers; cbn [sql_bind];
  rewrite ?db_of_people; cbn [sql_bind].

(** *** The three statements, prepared *)

Lemma prepare_select_all st :
  prepare_select select_all_query (db_of st)
  = SqlErr (OperationalError "no such column: numbers.phone").
Proof. open_select. reflexivity. Qed.

Lemma prepare_find st :
  prepare_select find_worker_query (db_of st)
  = SqlOk (Plan (numbers_table st) (Some (people_table st)) find_scope).
Proof. open_select. reflexivity. Qed.

Lemma prepare_select_person st :
  prepare_select select_person (db_of st)
  = SqlOk (Plan (people_table st) None [("people", people_columns)]).
Proof. open_select. reflexivity. Qed.

(** *** The join of [find_worker] *)

Lemma utf8_length_app s t :
  utf8_length (s ++ t) = (utf8_length s + utf8_length t)%N.
Proof.
  induction s as [|c s IH]; [done|].
  cbn [app utf8_length foldr]. fold (utf8_length (s ++ t)).
  fold (utf8_length s). rewrite IH. lia.
Qed.

Lemma pattern_fits q :
  (like_pattern_limit <? utf8_length (q ++ str "%"))%N = negb (short q).
Proof.
  rewrite utf8_length_app. change (utf8_length (str "%")) with 1%N.
  unfold short, like_pattern_limit.
  destruct (N.ltb_spec (utf8_length q) 50000);
    destruct (N.ltb_spec 50000 (utf8_length q + 1)); cbn; lia || done.
Qed.

Lemma find_where q p r :
  holds_opt find_scope [r; person_row p] [VText q]
    (sel_where find_worker_query)
  = if short q then SqlOk (name_matches q (person_name p))
    else SqlErr (OperationalError "LIKE or GLOB pattern too complex").
Proof.
  cbn -[truthy of_bool like_func]. unfold like_func.
  rewrite pattern_fits. destruct (short q); cbn [negb sql_bind]; [|done].
  by rewrite truthy_of_bool.
Qed.

Lemma find_on q p n :
  holds_opt find_scope [phone_row n; person_row p] [VText q] (Some join_on)
  = SqlOk (person_id p =? phone_owner n).
Proof. cbn -[truthy of_bool]. by rewrite truthy_of_bool. Qed.

Lemma scan_numbers q p ns :
  scan find_worker_query find_scope [VText q]
       (fun ri => [ri; person_row p]) false (map phone_row ns)
  = SqlOk (map find_row
             (n ← ns; if person_id p =? phone_owner n then [(p, n)] else [])).
Proof.
  induction ns as [|n ns IH]; [done|].
  cbn [map scan]. rewrite IH.
  change (snd <$> sel_join find_worker_query) with (Some join_on).
  rewrite find_on. cbn [sql_bind]. rewrite andb_false_r. cbn [sql_bind].
  rewrite bind_cons. by destruct (person_id p =? phone_owner n).
Qed.

Lemma filter_partners (f : pystr -> bool) p ns :
  filter (fun pn : person * phone => f (person_name pn.1) = true)
         (n ← ns; if person_id p =? phone_owner n then [(p, n)] else [])
  = if f (person_name p)
    then n ← ns; if person_id p =? phone_owner n then [(p, n)] else []
    else [].
Proof.
  induction ns as [|n ns IH]; [by destruct (f _)|].
  rewrite bind_cons, filter_app, IH.
  destruct (person_id p =? phone_owner n).
  - rewrite filter_cons, filter_nil. cbn [fst].
    destruct (f (person_name p)) eqn:E.
    + by rewrite decide_True.
    + by rewrite decide_False.
  - rewrite filter_nil. by destruct (f (person_name p)).
Qed.

(** The rows [find_worker_query] gives on the people [ps] and the phone
    rows [ns]. *)
Lemma nested_find q ps ns :
  nested find_worker_query find_scope [VText q] true true
         (map person_row ps) (map phone_row ns)
  = if short q then
      SqlOk (map find_row
               (filter (fun pn => name_matches q (person_name pn.1) = true)
                       (pairs ps ns)))
    else
      match ps with
      | [] => SqlOk []
      | _ :: _ => SqlErr (OperationalError "LIKE or GLOB pattern too complex")
      end.
Proof.
  induction ps as [|p ps IH]; [by destruct (short q)|].
  cbn [map nested]. rewrite find_where. rewrite IH. clear IH.
  destruct (short q); cbn [sql_bind]; [|done].
  unfold pairs. rewrite bind_cons, filter_app, map_app.
  rewrite (filter_partners (name_matches q)).
  destruct (name_matches q (person_name p)); cbn [sql_bind negb].
  - by rewrite scan_numbers.
  - done.
Qed.

Lemma step_find q st :
  step_select find_worker_query
    (Plan (numbers_table st) (Some (people_table st)) find_scope) [VText q]
  = if short q then
      SqlOk (map find_row
               (filter (fun pn => name_matches q (person_name pn.1) = true)
                       (joined st)))
    else
      match people st with
      | [] => SqlOk []
      | _ :: _ => SqlErr (OperationalError "LIKE or GLOB pattern too complex")
      end.
Proof.
  unfold step_select. cbn [p_scope p_joined p_from].
  change (restricts find_scope 1 (sel_where find_worker_query)) with true.
  cbn match. cbn [people_table numbers_table t_rows].
  apply nested_find.
Qed.

(** *** The lookup of [add_worker] *)

Lemma step_select_person name st :
  step_select select_person
    (Plan (people_table st) None [("people", people_columns)]) [VText name]
  = SqlOk (map (fun p => [VInt (person_id p)])
               (filter (fun p => has_name name p = true) (people st))).
Proof.
  unfold step_select. cbn [p_scope p_joined p_from people_table t_rows].
  induction (people st) as [|p ps IH]; [done|].
  cbn [map scan]. rewrite IH. clear IH.
  change (snd <$> sel_join select_person) with (@None expr).
  cbn [holds_opt sql_bind andb].
  assert (E : holds_opt [("people", people_columns)] [person_row p]
                [VText name] (sel_where select_person)
              = SqlOk (has_name name p)).
  { cbn -[truthy of_bool]. by rewrite truthy_of_bool. }
  rewrite E. cbn [sql_bind]. rewrite filter_cons.
  destruct (has_name name p) eqn:H.
  - by rewrite decide_True.
  - by rewrite decide_False.
Qed.

Lemma head_map_filter {A B} (f : A -> B) (P : A -> bool) (l : list A) :
  head (map f (filter (fun a => P a = true) l)) = f <$> find P l.
Proof.
  induction l as [|a l IH]; [done|].
  rewrite filter_cons. cbn [find]. destruct (P a) eqn:E.
  - by rewrite decide_True.
  - rewrite decide_False by (by intros ?). exact IH.
Qed.

Lemma fetch_person name st :
  fetchone (map (map to_py)
             (map (fun p => [VInt (person_id p)])
                  (filter (fun p => has_name name p = true) (people st))))
  = (fun p => [PInt (person_id p)]) <$> find (has_name name) (people st).
Proof.
  unfold fetchone. rewrite map_map. apply (head_map_filter _ (has_name name)).
Qed.

(** *** The two INSERT statements *)

Lemma foldr_max_le (ids : list Z) k : In k ids -> k <= foldr Z.max 0 ids.
Proof.
  induction ids as [|i ids IH]; cbn; [done|]. intros [->|H]; [lia|].
  specialize (IH H). lia.
Qed.

Lemma foldr_max_nonneg (ids : list Z) : 0 <= foldr Z.max 0 ids.
Proof. induction ids as [|i ids IH]; cbn; lia. Qed.

Lemma next_person_id_pos st : 1 <= next_person_id st.
Proof.
  unfold next_person_id.
  pose proof (foldr_max_nonneg (map person_id (people st))). lia.
Qed.

Lemma max_rowid_people ps :
  max_rowid 0 (map person_row ps) = foldr Z.max 0 (map person_id ps).
Proof.
  unfold max_rowid. induction ps as [|p ps IH]; [done|].
  cbn [map foldr]. rewrite IH. reflexivity.
Qed.

Lemma place_row_last_people ps p :
  (forall p', In p' ps -> person_id p' <= person_id p) ->
  place_row 0 (person_row p) (map person_row ps) = map person_row (ps ++ [p]).
Proof.
  induction ps as [|p' ps IH]; intros H; [done|].
  cbn [map place_row app].
  change (rowid_at 0 (person_row p)) with (person_id p).
  change (rowid_at 0 (person_row p')) with (person_id p').
  pose proof (H p' (or_introl eq_refl)).
  destruct (Z.ltb_spec (person_id p) (person_id p')); [lia|].
  f_equal. apply IH. intros p'' Hin. apply H. by right.
Qed.

Lemma prepare_insert_people st :
  prepare_insert "people" ["human_name"; "human_bd"] (db_of st)
  = SqlOk (people_table st, [1; 2]%nat).
Proof. unfold prepare_insert. rewrite db_of_people. reflexivity. Qed.

Lemma prepare_insert_numbers st :
  prepare_insert "numbers" ["human_id"; "phone_number"] (db_of st)
  = SqlOk (numbers_table st, [0; 1]%nat).
Proof. unfold prepare_insert. rewrite db_of_numbers. reflexivity. Qed.

Lemma step_insert_people st name birthday :
  step_insert "people" ["human_name"; "human_bd"]
    (people_table st, [1; 2]%nat) [VText name; VText birthday] (db_of st)
  = if 2 ^ 63 <=? next_person_id st
    then SqlErr (OperationalError "database or disk is full")
    else SqlOk (db_of (add_person st name birthday), next_person_id st).
Proof.
  unfold step_insert.
  cbn -[place_row max_rowid Z.max Z.add Z.leb largest_rowid Z.pow].
  rewrite max_rowid_people.
  assert (E : (largest_rowid
               <=? Z.max (people_seq st)
                         (foldr Z.max 0 (map person_id (people st))))
              = (2 ^ 63 <=? next_person_id st)).
  { unfold largest_rowid, next_person_id.
    destruct (Z.leb_spec (2 ^ 63 - 1)
                (Z.max (people_seq st)
                       (foldr Z.max 0 (map person_id (people st)))));
      destruct (Z.leb_spec (2 ^ 63)
                  (Z.max (people_seq st)
                         (foldr Z.max 0 (map person_id (people st))) + 1));
      lia || done. }
  rewrite E. destruct (2 ^ 63 <=? next_person_id st); [done|].
  fold (next_person_id st).
  f_equal. f_equal.
  rewrite db_of_set_people. unfold db_of, people_table, add_person.
  cbn [people numbers people_seq numbers_seq].
  f_equal. f_equal.
  apply (place_row_last_people (people st)
           (Person (next_person_id st) name birthday)).
  intros p' Hin. cbn. unfold next_person_id.
  pose proof (foldr_max_le (map person_id (people st)) (person_id p')
                           (in_map _ _ _ Hin)).
  lia.
Qed.

Lemma place_row_phone n ns :
  place_row 0 (phone_row n) (map phone_row ns)
  = map phone_row (place_phone n ns).
Proof.
  induction ns as [|m ns IH]; [done|].
  cbn [map place_row place_phone].
  change (rowid_at 0 (phone_row n)) with (phone_owner n).
  change (rowid_at 0 (phone_row m)) with (phone_owner m).
  destruct (phone_owner n <? phone_owner m); [done|].
  cbn [map]. by rewrite IH.
Qed.

Lemma has_rowid_numbers id ns :
  has_rowid 0 id (map phone_row ns) = existsb (has_owner id) ns.
Proof.
  unfold has_rowid. induction ns as [|m ns IH]; [done|].
  cbn [map existsb]. rewrite IH. reflexivity.
Qed.

Lemma step_insert_number st id n :
  step_insert "numbers" ["human_id"; "phone_number"]
    (numbers_table st, [0; 1]%nat) [VInt id; VInt n] (db_of st)
  = if existsb (has_owner id) (numbers st)
    then SqlErr (IntegrityError "UNIQUE constraint failed: numbers.human_id")
    else SqlOk (db_of (attach st id n), id).
Proof.
  unfold step_insert.
  cbn -[place_row has_rowid Z.max].
  rewrite has_rowid_numbers.
  destruct (existsb _ _); [done|].
  f_equal. f_equal.
  rewrite db_of_set_numbers. unfold db_of, numbers_table, attach.
  cbn [people numbers people_seq numbers_seq].
  f_equal. f_equal. f_equal.
  apply (place_row_phone (Phone id n)).
Qed.

Lemma step_insert_number_null st id :
  step_insert "numbers" ["human_id"; "phone_number"]
    (numbers_table st, [0; 1]%nat) [VInt id; VNull] (db_of st)
  = SqlErr
      (IntegrityError "NOT NULL constraint failed: numbers.phone_number").
Proof. reflexivity. Qed.

(** ** LIKE on a prefix pattern *)

Section Like.

Lemma str_percent : str "%" = [percent].
Proof. reflexivity. Qed.

Lemma pattern_percent s : pattern_compare [percent] s = true.
Proof.
  cbn [pattern_compare]. change (percent =? percent)%N with true. cbn match.
  induction s as [|c s IH]; [done|].
  cbn [pattern_compare orb]. exact IH.
Qed.

Lemma name_matches_empty s : name_matches [] s = true.
Proof.
  unfold name_matches, like_match. cbn [app]. rewrite str_percent.
  change (c_str [percent]) with [percent]. apply pattern_percent.
Qed.







End Like.

(** ** What each function does to a file holding a state *)

Section Runs.

Context (path : pystr) (w : world).

Lemma database_at_world_of st :
  database_at (world_of st path w) path = db_of st.
Proof. unfold database_at, world_of. cbn [fs]. by rewrite lookup_insert_eq. Qed.

Lemma write_world_of st st' :
  World (<[path := db_of st']> (fs (world_of st path w)))
        (stdout (world_of st path w)) (cwd (world_of st path w))
  = world_of st' path w.
Proof. unfold world_of. cbn [fs stdout cwd]. by rewrite insert_insert_eq. Qed.

Lemma database_at_written db f o c :
  database_at (World (<[path := db]> f) o c) path = db.
Proof. unfold database_at. cbn [fs]. by rewrite lookup_insert_eq. Qed.

(** Binding an integer: it has to be one of 64 bits. *)
Lemma bind_int n w' :
  bind_param (PInt n) w'
  = (if in_range n then Ok (VInt n) else Raise OverflowError, w').
Proof.
  unfold bind_param, in_range.
  destruct (Z.ltb_spec n (- 2 ^ 63)); destruct (Z.leb_spec (- 2 ^ 63) n);
    try lia; cbn [orb andb]; [done|].
  destruct (Z.ltb_spec (2 ^ 63 - 1) n); destruct (Z.ltb_spec n (2 ^ 63));
    try lia; done.
Qed.

Lemma execute_select_person st name b w' :
  execute_select (Connection path (db_of st) b) select_person [PStr name] w'
  = (Ok (map (map to_py)
           (map (fun p => [VInt (person_id p)])
                (filter (fun p => has_name name p = true) (people st)))), w').
Proof.
  unfold execute_select. cbn [conn_db]. rewrite prepare_select_person.
  cbv [for_each bind_param bind ret]. by rewrite step_select_person.
Qed.

Lemma execute_insert_people st name birthday b w' :
  execute_insert (Connection path (db_of st) b) "people"
    ["human_name"; "human_bd"] [PStr name; PStr birthday] w'
  = if 2 ^ 63 <=? next_person_id st then (Raise database_full, w')
    else (Ok (Connection path (db_of (add_person st name birthday)) true,
              next_person_id st), w').
Proof.
  unfold execute_insert. cbn [conn_db conn_path].
  rewrite prepare_insert_people.
  cbv [for_each bind_param bind ret]. rewrite step_insert_people.
  by destruct (2 ^ 63 <=? next_person_id st).
Qed.

Lemma execute_insert_number st id number b w' :
  execute_insert (Connection path (db_of st) b) "numbers"
    ["human_id"; "phone_number"] [PInt id; py_number number] w'
  = if in_range id then
      match number with
      | None => (Raise not_null_failed, w')
      | Some n =>
        if in_range n then
          if existsb (has_owner id) (numbers st)
          then (Raise unique_failed, w')
          else (Ok (Connection path (db_of (attach st id n)) true, id), w')
        else (Raise OverflowError, w')
      end
    else (Raise OverflowError, w').
Proof.
  unfold execute_insert. cbn [conn_db conn_path].
  rewrite prepare_insert_numbers. cbv [for_each bind ret].
  rewrite bind_int. destruct (in_range id); [|done].
  destruct number as [n|]; cbn [py_number].
  - rewrite bind_int. destruct (in_range n); [|done].
    rewrite step_insert_number. by destruct (existsb _ _).
  - cbv [bind_param ret]. by rewrite step_insert_number_null.
Qed.

Lemma run_bind {A B} (m : M A) (k : A -> M B) w' :
  bind m k w'
  = match m w' with
    | (Ok a, w'') => k a w''
    | (Raise e, w'') => (Raise e, w'')
    end.
Proof. reflexivity. Qed.

(** [add_worker], case by case. *)
Lemma add_worker_run st name number birthday :
  add_worker path name number birthday (world_of st path w)
  = (match add_error st name number with
     | Some e => Raise e
     | None => Ok tt
     end,
     world_of (after_add st name number birthday) path w).
Proof.
  unfold add_worker. rewrite run_bind. unfold connect.
  rewrite database_at_world_of.
  rewrite run_bind, execute_select_person, fetch_person.
  unfold after_add, add_error, id_error, owner_of, with_person.
  destruct (find (has_name name) (people st)) as [p|];
    cbn [fmap option_fmap option_map].
  - rewrite run_bind, run_bind. unfold item at 1. cbn [lookup list_lookup].
    unfold ret at 1 2. rewrite run_bind.
    rewrite execute_insert_number.
    destruct (in_range (person_id p)); [|done].
    destruct number as [n|]; [|done].
    destruct (in_range n); cbn [negb]; [|done].
    destruct (existsb _ _); [done|].
    unfold commit, bind, write_file, ret, close.
    cbn [conn_in_tx conn_path conn_db].
    by rewrite write_world_of.
  - rewrite run_bind, run_bind. rewrite execute_insert_people.
    destruct (Z.leb_spec (2 ^ 63) (next_person_id st)) as [Hf|Hf]; [done|].
    unfold ret at 1. rewrite run_bind.
    rewrite execute_insert_number.
    assert (R : in_range (next_person_id st) = true).
    { unfold in_range. pose proof (next_person_id_pos st).
      apply andb_true_iff. split; [apply Z.leb_le|apply Z.ltb_lt]; lia. }
    rewrite R.
    destruct number as [n|]; [|done].
    destruct (in_range n); cbn [negb]; [|done].
    cbn [add_person numbers].
    destruct (existsb _ _); [done|].
    unfold commit, bind, write_file, ret, close.
    cbn [conn_in_tx conn_path conn_db].
    by rewrite write_world_of.
Qed.

Lemma add_worker_after st name number birthday :
  snd (add_worker path name number birthday (world_of st path w))
  = world_of (after_add st name number birthday) path w.
Proof. by rewrite add_worker_run. Qed.

Lemma for_each_records (l : list (person * phone)) w' :
  for_each record_of_row (map (map to_py) (map find_row l)) w'
  = (Ok (map record_of l), w').
Proof.
  induction l as [|pn l IH]; [done|].
  cbn [map for_each]. rewrite run_bind.
  change (record_of_row _ w') with (Ok (record_of pn), w').
  cbv beta iota. rewrite run_bind, IH. reflexivity.
Qed.

(** [find_worker] returns the records of the join that pass the LIKE,
    unless the pattern is too long and there is a person to test it on. *)
Lemma find_worker_run st q :
  find_worker path q (world_of st path w)
  = (if short q then Ok (records_where (name_matches q) st)
     else match people st with
          | [] => Ok []
          | _ :: _ => Raise pattern_too_complex
          end,
     world_of st path w).
Proof.
  unfold find_worker. rewrite run_bind. unfold connect.
  rewrite database_at_world_of. rewrite run_bind.
  unfold execute_select. cbn [conn_db]. rewrite prepare_find.
  cbv [for_each bind_param bind ret close]. rewrite step_find.
  destruct (short q).
  - unfold records_where.
    destruct (filter _ (joined st)) as [|pn l] eqn:E; [done|].
    rewrite !length_map. cbn [length Nat.eqb].
    by rewrite for_each_records.
  - by destruct (people st).
Qed.

(** [create_db] writes the schema over what the file holds. *)
Lemma create_db_run w' :
  create_db path w'
  = (Ok tt, World (<[path := ensure_schema (database_at w' path)]> (fs w'))
                  (stdout w') (cwd w')).
Proof.
  cbv [create_db bind connect execute_create write_file ret close
       conn_in_tx conn_path conn_db fs stdout cwd].
  by rewrite insert_insert_eq.
Qed.

End Runs.

(** ** The schema, once it is there *)

Section Schema.

Lemma create_table_present name cols fks (db : database) t :
  db !! name = Some t -> create_table_if_not_exists name cols fks db = db.
Proof. intros H. unfold create_table_if_not_exists. by rewrite H. Qed.

Lemma create_table_lookup name cols fks (db : database) :
  is_Some (create_table_if_not_exists name cols fks db !! name).
Proof.
  unfold create_table_if_not_exists.
  destruct (db !! name) eqn:E; [by rewrite E|]. rewrite lookup_insert_eq. done.
Qed.

Lemma create_table_keeps name name' cols fks (db : database) :
  is_Some (db !! name') ->
  is_Some (create_table_if_not_exists name cols fks db !! name').
Proof.
  intros H. unfold create_table_if_not_exists.
  destruct (db !! name) eqn:E; [done|].
  destruct (decide (name = name')) as [->|Hne].
  - rewrite lookup_insert_eq. done.
  - by rewrite lookup_insert_ne.
Qed.

Lemma ensure_schema_idem db :
  ensure_schema (ensure_schema db) = ensure_schema db.
Proof.
  unfold ensure_schema.
  set (db1 := create_table_if_not_exists "numbers" numbers_columns [] db).
  set (db2 := create_table_if_not_exists "people" _ _ db1).
  assert (H1 : is_Some (db2 !! "numbers")).
  { apply create_table_keeps, create_table_lookup. }
  assert (H2 : is_Some (db2 !! "people")) by apply create_table_lookup.
  destruct H1 as [t1 H1], H2 as [t2 H2].
  rewrite (create_table_present "numbers" _ _ db2 t1 H1).
  by rewrite (create_table_present "people" _ _ db2 t2 H2).
Qed.

Lemma ensure_schema_store st : ensure_schema (db_of st) = db_of st.
Proof.
  unfold ensure_schema.
  rewrite (create_table_present "numbers" numbers_columns [] _ _
             (db_of_numbers st)).
  by rewrite (create_table_present "people" people_columns
                people_foreign_keys _ _ (db_of_people st)).
Qed.

Lemma ensure_schema_empty : ensure_schema ∅ = db_of empty_store.
Proof. reflexivity. Qed.

Lemma create_db_times path n w :
  times (S n) (create_db path) w = create_db path w.
Proof.
  revert w. induction n as [|n IH]; intros w.
  - cbn [times]. unfold bind. rewrite create_db_run. reflexivity.
  - change (times (S (S n)) (create_db path) w)
      with (bind (create_db path) (fun _ => times (S n) (create_db path)) w).
    unfold bind at 1. rewrite create_db_run.
    rewrite IH. rewrite create_db_run.
    rewrite database_at_written. cbn [fs stdout cwd].
    rewrite ensure_schema_idem. by rewrite insert_insert_eq.
Qed.

Lemma create_db_fresh path w :
  create_db path (world_without path w)
  = (Ok tt, world_of empty_store path w).
Proof.
  rewrite create_db_run. unfold database_at, world_without, world_of.
  cbn [fs stdout cwd]. rewrite lookup_delete_eq.
  change (default ∅ None) with (∅ : database).
  rewrite ensure_schema_empty. by rewrite insert_delete_eq.
Qed.

Lemma create_db_store st path w :
  create_db path (world_of st path w) = (Ok tt, world_of st path w).
Proof.
  rewrite create_db_run. rewrite database_at_world_of, ensure_schema_store.
  apply f_equal. apply write_world_of.
Qed.

End Schema.

(** ** Invariants of the states the program produces *)

Section Invariants.

Lemma forallb_place_phone (P : phone -> bool) n l :
  forallb P (place_phone n l) = P n && forallb P l.
Proof.
  induction l as [|m l IH]; cbn [place_phone forallb]; [done|].
  destruct (_ <? _); cbn [forallb]; [done|]. rewrite IH.
  destruct (P n), (P m); done.
Qed.

Lemma existsb_place_phone (P : phone -> bool) n l :
  existsb P (place_phone n l) = P n || existsb P l.
Proof.
  induction l as [|m l IH]; cbn [place_phone existsb]; [done|].
  destruct (_ <? _); cbn [existsb]; [done|]. rewrite IH.
  destruct (P n), (P m); done.
Qed.

Lemma place_phone_last n l :
  forallb (fun m => phone_owner m <=? phone_owner n) l = true ->
  place_phone n l = (l ++ [n])%list.
Proof.
  induction l as [|m l IH]; cbn [forallb place_phone app]; [done|].
  intros [H1 H2]%andb_true_iff. apply Z.leb_le in H1.
  destruct (Z.ltb_spec (phone_owner n) (phone_owner m)); [lia|].
  by rewrite IH.
Qed.

Lemma owner_in_people st name birthday :
  existsb (fun p => person_id p =? owner_of st name)
          (people (with_person st name birthday)) = true.
Proof.
  unfold owner_of, with_person.
  destruct (find (has_name name) (people st)) as [p|] eqn:E.
  - apply find_some in E as [Hin _]. apply existsb_exists.
    exists p. split; [done|]. apply Z.eqb_refl.
  - cbn [add_person people]. rewrite existsb_app. cbn [existsb person_id].
    rewrite Z.eqb_refl. by rewrite orb_true_r.
Qed.

Lemma people_with_person st name birthday p :
  In p (people st) -> In p (people (with_person st name birthday)).
Proof.
  unfold with_person. destruct (find _ _); [done|].
  cbn [add_person people]. intros H. apply in_or_app. by left.
Qed.

Lemma numbers_with_person st name birthday :
  numbers (with_person st name birthday) = numbers st.
Proof. unfold with_person. by destruct (find _ _). Qed.

(** A call either leaves the state as it was or attaches the number to
    the person of that name, who had none. *)
Lemma after_add_cases st name number birthday :
  after_add st name number birthday = st
  \/ exists n,
       number = Some n
       /\ existsb (has_owner (owner_of st name)) (numbers st) = false
       /\ after_add st name number birthday
          = attach (with_person st name birthday) (owner_of st name) n.
Proof.
  unfold after_add, add_error. destruct (id_error st name); [by left|].
  destruct number as [n|]; [|by left].
  destruct (negb (in_range n)); [by left|].
  destruct (existsb _ _) eqn:E; [by left|]. right. by exists n.
Qed.

Lemma after_add_error st name number birthday e :
  add_error st name number = Some e -> after_add st name number birthday = st.
Proof. intros H. unfold after_add. by rewrite H. Qed.

Lemma linked_after_add st name number birthday :
  linked st = true -> linked (after_add st name number birthday) = true.
Proof.
  intros H.
  destruct (after_add_cases st name number birthday)
    as [->|(n & -> & E & ->)]; [done|].
  unfold linked, attach. cbn [people numbers].
  rewrite forallb_place_phone, numbers_with_person. cbn [phone_owner].
  rewrite owner_in_people. cbn [andb].
  unfold linked in H. rewrite forallb_forall in H |- *.
  intros m Hm. specialize (H m Hm).
  apply existsb_exists in H as (p & Hp & Hid).
  apply existsb_exists. exists p. split; [|done].
  by apply people_with_person.
Qed.

(** No phone number of a reachable state lacks its person. *)
Lemma reachable_linked st : reachable st -> linked st = true.
Proof.
  induction 1 as [|st name number birthday _ IH]; [done|].
  by apply linked_after_add.
Qed.

Lemma by_phone_after_add st name number birthday :
  reachable_by_phone st = true ->
  reachable_by_phone (after_add st name number birthday) = true.
Proof.
  intros H.
  destruct (after_add_cases st name number birthday)
    as [->|(n & -> & E & ->)]; [done|].
  unfold reachable_by_phone, attach. cbn [people numbers].
  unfold reachable_by_phone in H. rewrite forallb_forall in H |- *.
  intros p Hp. rewrite existsb_place_phone, numbers_with_person.
  unfold has_owner at 1. cbn [phone_owner].
  unfold with_person, owner_of in *.
  destruct (find (has_name name) (people st)) as [p0|] eqn:F.
  - rewrite (H p Hp). apply orb_true_r.
  - cbn [add_person people] in Hp. apply in_app_or in Hp as [Hp|[<-|[]]].
    + rewrite (H p Hp). apply orb_true_r.
    + cbn [person_id]. by rewrite Z.eqb_refl.
Qed.

(** No person of a reachable state lacks a phone number. *)
Lemma reachable_has_phone st : reachable st -> reachable_by_phone st = true.
Proof.
  induction 1 as [|st name number birthday _ IH]; [done|].
  by apply by_phone_after_add.
Qed.

Lemma linked_below_next st m :
  linked st = true -> In m (numbers st) -> phone_owner m < next_person_id st.
Proof.
  intros H Hm. unfold linked in H. rewrite forallb_forall in H.
  apply H, existsb_exists in Hm as (p & Hp & Hid). apply Z.eqb_eq in Hid.
  unfold next_person_id.
  pose proof (foldr_max_le (map person_id (people st)) (person_id p)
                           (in_map _ _ _ Hp)).
  lia.
Qed.

(** In a reachable state a second number for a known name is always
    refused: the person already owns the row id the INSERT asks for. *)
Lemma known_name_is_refused st path w name number birthday :
  reachable st ->
  existsb (has_name name) (people st) = true ->
  exists e,
    add_worker path name number birthday (world_of st path w)
    = (Raise e, world_of st path w).
Proof.
  intros Hr Hn. rewrite add_worker_run.
  assert (E : existsb (has_owner (owner_of st name)) (numbers st) = true).
  { unfold owner_of. destruct (find (has_name name) (people st)) as [p|] eqn:F.
    - apply find_some in F as [Hin _].
      pose proof (reachable_has_phone st Hr) as Hp.
      unfold reachable_by_phone in Hp. rewrite forallb_forall in Hp.
      by apply Hp.
    - apply existsb_exists in Hn as (p & Hin & Hp).
      by rewrite (find_none _ _ F p Hin) in Hp. }
  assert (exists e, add_error st name number = Some e) as [e He].
  { unfold add_error. destruct (id_error st name); [by eexists|].
    destruct number as [n|]; [|by eexists].
    destruct (negb (in_range n)); [by eexists|]. rewrite E. by eexists. }
  rewrite He, (after_add_error _ _ _ _ _ He). by exists e.
Qed.

End Invariants.

(** ** Filtering the join *)

Section Records.




Lemma filter_every {A} (f : A -> bool) (l : list A) :
  (forall a, f a = true) -> filter (fun a => f a = true) l = l.
Proof.
  intros H. induction l as [|a l IH]; [done|].
  by rewrite filter_cons, decide_True, IH.
Qed.


Lemma records_where_all f st :
  (forall s, f s = true) -> records_where f st = all_records st.
Proof.
  intros H. unfold records_where, all_records.
  rewrite (filter_every (fun pn => f (person_name pn.1))); [done|].
  intros pn. apply H.
Qed.


End Records.

(** * The claims of the specification *)

(** ** Listing *)

(** C1.  [select_all] is to return every person joined with every phone
    number as flat records.  It does not: its statement names the column
    [numbers.phone], the table has [phone_number], and so on every state of
    the schema the call raises [OperationalError] and returns no record. *)
Theorem select_all_raises st path w :
  select_all path (world_of st path w)
  = (Raise no_such_column, world_of st path w).
Proof.
  unfold select_all. rewrite run_bind. unfold connect.
  rewrite database_at_world_of, run_bind.
  unfold execute_select. cbn [conn_db]. by rewrite prepare_select_all.
Qed.

(** The run of the specification: [add] for Ann Lee on a new file stores
    her, and [display] then ends in the error, with nothing printed. *)
Example add_then_display :
  main add_ann_lee fresh_world
  = Some (Ok tt, world_of ann_store default_db fresh_world)
  /\ main [str "display"] (world_of ann_store default_db fresh_world)
     = Some (Raise no_such_column, world_of ann_store default_db fresh_world)
  /\ stdout (world_of ann_store default_db fresh_world) = [].
Proof. repeat split; vm_compute; reflexivity. Qed.

(** C10.  [find_worker] with the empty string as query returns every
    record of the join, each a flat record of the person's name and
    birthday and the number: the pattern is then just [%], which every name
    matches. *)
Theorem find_worker_empty_query st path w :
  find_worker path [] (world_of st path w)
  = (Ok (map (fun pn : person * phone =>
                flat_record (person_name pn.1) (person_birthday pn.1)
                            (phone_value pn.2))
             (joined st)),
     world_of st path w).
Proof.
  rewrite find_worker_run. change (short []) with true. do 2 f_equal.
  apply records_where_all, name_matches_empty.
Qed.

(** The empty query on the three names: three records, in the order of
    the person ids. *)
Example find_worker_empty_query_names :
  find_worker default_db [] (world_of names_store default_db fresh_world)
  = (Ok [flat_record (str "Smith") (str "1980-01-01") 100;
         flat_record (str "Jones") (str "1981-02-02") 200;
         flat_record (str "smith") (str "1982-03-03") 300],
     world_of names_store default_db fresh_world).
Proof. rewrite find_worker_run. reflexivity. Qed.

(** ** Searching *)







(** ** Rendering *)

(** One record gives the header between two borders, then the row with
    index 1 and a closing border. *)
Example display_one_worker :
  stdout (snd (display_workers
                 [record (PStr (str "Ann Lee")) (PStr (str "1990-01-01"))
                         (PInt 555)]
                 fresh_world))
  = [ str "+------+--------------------------------+-----------------+-----------------+";
      str "|  №   |         Фамилия и имя          |      Номер      |  День рождения  |";
      str "+------+--------------------------------+-----------------+-----------------+";
      str "|  1   | Ann Lee                        | 555             | 1990-01-01      |";
      str "+------+--------------------------------+-----------------+-----------------+" ].
Proof. vm_compute. reflexivity. Qed.

(** C9.  [display_workers] on the empty list prints the one line of the
    empty-state message, and nothing else. *)
Theorem display_workers_empty w :
  display_workers [] w
  = (Ok tt, World (fs w) (stdout w ++ [str "Список пуст."]) (cwd w)).
Proof. reflexivity. Qed.

(** ** Adding *)

(** A name the store does not have gets the next person id; no phone row
    holds that id when every phone row has its person, so both rows go in,
    each at the end of its table.  The number has to fit 64 bits, and an id
    has to be left for the person. *)
Lemma add_worker_fresh_name st path w name n birthday :
  existsb (has_name name) (people st) = false ->
  linked st = true ->
  next_person_id st < 2 ^ 63 ->
  - 2 ^ 63 <= n < 2 ^ 63 ->
  add_worker path name (Some n) birthday (world_of st path w)
  = (Ok tt,
     world_of (Store (people st ++ [Person (next_person_id st) name birthday])
                     (numbers st ++ [Phone (next_person_id st) n])
                     (next_person_id st)
                     (Z.max (numbers_seq st) (next_person_id st)))
              path w).
Proof.
  intros Hname Hl Hid Hn. rewrite add_worker_run.
  assert (F : find (has_name name) (people st) = None).
  { destruct (find _ _) as [p|] eqn:F; [|done].
    apply find_some in F as [Hin Hp].
    assert (existsb (has_name name) (people st) = true); [|congruence].
    apply existsb_exists. eauto. }
  assert (E : existsb (has_owner (next_person_id st)) (numbers st) = false).
  { apply not_true_is_false. intros (m & Hm & Ho)%existsb_exists.
    apply Z.eqb_eq in Ho. pose proof (linked_below_next st m Hl Hm). lia. }
  assert (R : in_range n = true).
  { unfold in_range. apply andb_true_iff.
    split; [apply Z.leb_le|apply Z.ltb_lt]; lia. }
  assert (A : add_error st name (Some n) = None).
  { unfold add_error, id_error, owner_of. rewrite F.
    destruct (Z.leb_spec (2 ^ 63) (next_person_id st)); [lia|].
    by rewrite R, E. }
  unfold after_add. rewrite A. unfold owner_of, with_person. rewrite F.
  unfold attach, add_person.
  cbn [people numbers people_seq numbers_seq].
  rewrite place_phone_last; [done|].
  apply forallb_forall. intros m Hm. cbn [phone_owner]. apply Z.leb_le.
  pose proof (linked_below_next st m Hl Hm). lia.
Qed.

(** The same for the states the program produces. *)
Corollary add_worker_fresh_name_reachable st path w name n birthday :
  reachable st ->
  existsb (has_name name) (people st) = false ->
  next_person_id st < 2 ^ 63 ->
  - 2 ^ 63 <= n < 2 ^ 63 ->
  add_worker path name (Some n) birthday (world_of st path w)
  = (Ok tt,
     world_of (Store (people st ++ [Person (next_person_id st) name birthday])
                     (numbers st ++ [Phone (next_person_id st) n])
                     (next_person_id st)
                     (Z.max (numbers_seq st) (next_person_id st)))
              path w).
Proof.
  intros Hr Hn. apply add_worker_fresh_name; [done|].
  by apply reachable_linked.
Qed.




(** C2.  A second number under a name already stored is to add one phone
    row for the existing person.  It does not: the new row asks for the
    person's id as its own row id, which the person's first number holds,
    and the INSERT is refused.  On the store holding Ann Lee with her number
    every such call raises and leaves the file as it was: with the UNIQUE
    error for a number of 64 bits, before that with [OverflowError] for a
    number outside them, and with the NOT NULL error for no number. *)
Theorem second_number_is_refused path w number birthday :
  add_worker path (str "Ann Lee") number birthday
    (world_of ann_store path w)
  = (Raise match number with
           | Some n => if in_range n then unique_failed else OverflowError
           | None => not_null_failed
           end,
     world_of ann_store path w).
Proof.
  rewrite add_worker_run. unfold after_add.
  change (add_error ann_store (str "Ann Lee") number)
    with (match number with
          | Some n =>
            if negb (in_range n) then Some OverflowError
            else Some unique_failed
          | None => Some not_null_failed
          end).
  destruct number as [n|]; [|done]. by destruct (in_range n).
Qed.

Lemma in_place_phone n l : In n (place_phone n l).
Proof.
  induction l as [|m l IH]; cbn [place_phone]; [by left|].
  destruct (_ <? _); [by left|]. by right.
Qed.

Lemma for_each_bind_world params w :
  snd (for_each bind_param params w) = w.
Proof.
  induction params as [|v params IH]; [done|].
  cbn [for_each]. rewrite run_bind.
  assert (E : snd (bind_param v w) = w).
  { destruct v as [|n|s]; cbn [bind_param]; try done.
    by destruct (_ || _). }
  destruct (bind_param v w) as [[a|e] w1]; cbn [snd] in E; subst w1; [|done].
  rewrite run_bind.
  destruct (for_each bind_param params w) as [[bs|e] w2];
    cbn [snd] in IH; by subst w2.
Qed.

Lemma execute_select_world conn q params w :
  snd (execute_select conn q params w) = w.
Proof.
  unfold execute_select. destruct (prepare_select _ _); [|done].
  rewrite run_bind. pose proof (for_each_bind_world params w) as E.
  destruct (for_each bind_param params w) as [[vals|e] w1];
    cbn [snd] in E; subst w1; [|done].
  by destruct (step_select _ _ _).
Qed.

Lemma execute_insert_world conn tname cols params w :
  snd (execute_insert conn tname cols params w) = w.
Proof.
  unfold execute_insert. destruct (prepare_insert _ _ _); [|done].
  rewrite run_bind. pose proof (for_each_bind_world params w) as E.
  destruct (for_each bind_param params w) as [[vals|e] w1];
    cbn [snd] in E; subst w1; [|done].
  by destruct (step_insert _ _ _ _ _) as [[db k]|].
Qed.

(** After an INSERT the connection is in a transaction on the same
    file. *)
Lemma execute_insert_path conn tname cols params w conn' k w' :
  execute_insert conn tname cols params w = (Ok (conn', k), w') ->
  conn_path conn' = conn_path conn /\ conn_in_tx conn' = true.
Proof.
  unfold execute_insert. destruct (prepare_insert _ _ _); [|done].
  rewrite run_bind.
  destruct (for_each bind_param params w) as [[vals|e] w1]; [|done].
  destruct (step_insert _ _ _ _ _) as [[db k']|]; [|done].
  unfold ret. by intros [= <- _ _].
Qed.

Lemma add_worker_all_or_nothing path name number birthday w :
  match add_worker path name number birthday w with
  | (Raise _, w') => w' = w
  | (Ok _, w') =>
    exists db, w' = World (<[path := db]> (fs w)) (stdout w) (cwd w)
  end.
Proof.
  unfold add_worker. rewrite run_bind. unfold connect. rewrite run_bind.
  set (conn := Connection path (database_at w path) false).
  pose proof (execute_select_world conn select_person [PStr name] w) as E.
  destruct (execute_select conn select_person [PStr name] w)
    as [[rows|e] w1]; cbn [snd] in E; subst w1; [|done].
  rewrite run_bind.
  assert (S : exists conn' id,
            conn_path conn' = path
            /\ (match fetchone rows with
                | Some row => do id <- item row 0; ret (conn, id)
                | None =>
                  do (conn, lastrowid) <-
                    execute_insert conn "people" ["human_name"; "human_bd"]
                      [PStr name; PStr birthday];
                  ret (conn, PInt lastrowid)
                end w = (Ok (conn', id), w)
                \/ exists e,
                    match fetchone rows with
                    | Some row => do id <- item row 0; ret (conn, id)
                    | None =>
                      do (conn, lastrowid) <-
                        execute_insert conn "people"
                          ["human_name"; "human_bd"]
                          [PStr name; PStr birthday];
                      ret (conn, PInt lastrowid)
                    end w = (Raise e, w))).
  { destruct (fetchone rows) as [row|].
    - rewrite run_bind. unfold item. destruct (row !! 0%nat) as [v|].
      + exists conn, v. split; [done|]. by left.
      + exists conn, PNone. split; [done|]. right. by eexists.
    - rewrite run_bind.
      pose proof (execute_insert_world conn "people"
                    ["human_name"; "human_bd"] [PStr name; PStr birthday] w)
        as E.
      destruct (execute_insert conn "people" _ _ w) as [[[c k]|e] w1] eqn:X;
        cbn [snd] in E; subst w1.
      + exists c, (PInt k). split; [|by left].
        by apply execute_insert_path in X as [X _].
      + exists conn, PNone. split; [done|]. right. by eexists. }
  destruct S as (conn' & id & Hp & [->|[e ->]]); [|done].
  rewrite run_bind.
  pose proof (execute_insert_world conn' "numbers"
                ["human_id"; "phone_number"] [id; py_number number] w) as E.
  destruct (execute_insert conn' "numbers" _ _ w) as [[[c k]|e] w1] eqn:X;
    cbn [snd] in E; subst w1; [|done].
  apply execute_insert_path in X as [X T]. rewrite Hp in X.
  unfold commit. rewrite T. exists (conn_db c). by rewrite <- X.
Qed.
Lemma add_worker_pairs path name number birthday st w :
  match add_worker path name number birthday (world_of st path w) with
  | (Raise _, w') => w' = world_of st path w
  | (Ok _, w') =>
    exists st' p n,
      w' = world_of st' path w
      /\ number = Some n
      /\ person_name p = name
      /\ In p (people st')
      /\ In (Phone (person_id p) n) (numbers st')
      /\ (people st' = people st \/ people st' = (people st ++ [p])%list)
  end.
Proof.
  rewrite add_worker_run.
  destruct (add_error st name number) as [e|] eqn:A.
  { by rewrite (after_add_error _ _ _ _ _ A). }
  unfold after_add. rewrite A.
  destruct number as [n|].
  2:{ unfold add_error in A. by destruct (id_error st name). }
  unfold owner_of, with_person.
  destruct (find (has_name name) (people st)) as [p|] eqn:F.
  - exists (attach st (person_id p) n), p, n.
    apply find_some in F as [Hin Hp].
    unfold has_name, pystr_eqb in Hp. apply bool_decide_eq_true in Hp.
    repeat split; try done.
    + apply in_place_phone.
    + by left.
  - set (p := Person (next_person_id st) name birthday).
    exists (attach (add_person st name birthday) (next_person_id st) n), p, n.
    repeat split; try done.
    + cbn [attach add_person people]. apply in_or_app. right. by left.
    + apply in_place_phone.
    + by right.
Qed.

(** C5.  [add_worker] is atomic.  On any file system, a call that raises
    leaves everything as it was, and a call that returns has written the
    one file.  On a state of the schema, what it has written then holds the
    person of that name together with the new number, and at most that one
    person is new: no state with a person and without the number is ever in
    the file. *)
Theorem add_worker_atomic path name number birthday :
  (forall w,
     match add_worker path name number birthday w with
     | (Raise _, w') => w' = w
     | (Ok _, w') =>
       exists db, w' = World (<[path := db]> (fs w)) (stdout w) (cwd w)
     end)
  /\ (forall st w,
        match add_worker path name number birthday (world_of st path w) with
        | (Raise _, w') => w' = world_of st path w
        | (Ok _, w') =>
          exists st' p n,
            w' = world_of st' path w
            /\ number = Some n
            /\ person_name p = name
            /\ In p (people st')
            /\ In (Phone (person_id p) n) (numbers st')
            /\ (people st' = people st \/ people st' = (people st ++ [p])%list)
        end).
Proof.
  split.
  - intros w. apply add_worker_all_or_nothing.
  - intros st w. apply add_worker_pairs.
Qed.

(** ** The schema *)

(** C6.  [create_db] is idempotent and does not fail: run any number of
    times it does what one run does; on a path without a file it leaves
    exactly the two empty tables [people] and [numbers]; on a file that
    holds them it changes nothing. *)
Theorem create_db_idempotent path w n st :
  times (S n) (create_db path) w = create_db path w
  /\ fst (create_db path w) = Ok tt
  /\ create_db path (world_without path w)
     = (Ok tt, world_of empty_store path w)
  /\ create_db path (world_of st path w) = (Ok tt, world_of st path w)
  /\ dom (db_of st) = {["people"; "numbers"]}
  /\ t_cols <$> db_of st !! "people" = Some people_columns
  /\ t_cols <$> db_of st !! "numbers" = Some numbers_columns.
Proof.
  split; [apply create_db_times|].
  split; [by rewrite create_db_run|].
  split; [apply create_db_fresh|].
  split; [apply create_db_store|].
  split; [apply dom_db_of|].
  by rewrite db_of_people, db_of_numbers.
Qed.

(** ** The command line *)

(** A command that is not one of the three never reaches the dispatch: the
    parser ends the process with status 2. *)
Lemma main_unknown_command cmd rest w :
  starts_with_dash cmd = false ->
  find_subparser (cwd w) cmd = None ->
  main (cmd :: rest) w = Some (Raise (SystemExit 2), w).
Proof.
  intros H1 H2. unfold main, parse_args. rewrite H1, H2. reflexivity.
Qed.

(** C4.  With no command the program is to do nothing and end with
    success.  It does nothing to the files and prints nothing, but it does
    not end with success: the namespace of a run without subcommand has no
    [db], since [--db] belongs to the subcommands, and [args.db] raises
    [AttributeError] before the dispatch is reached. *)
Theorem main_without_command_raises w :
  main [] w = Some (Raise (AttributeError "db"), w)
  /\ exit_status (Raise (AttributeError "db")) = 1.
Proof. split; reflexivity. Qed.

(** * Further properties of the code *)

(** ** The table of [display_workers] *)

Lemma format_field_shown a width v :
  v <> PNone -> forall w, format_field a width v w = (Ok (pad a width (shown v)), w).
Proof. intros H w. destruct v; done. Qed.

Lemma printable_get worker :
  printable worker = true ->
  get worker "name" <> PNone /\ get worker "number" <> PNone
  /\ get worker "birthday" <> PNone.
Proof.
  unfold printable. cbn [forallb]. rewrite !andb_true_iff, !negb_true_iff.
  intros (H1 & H2 & H3 & _).
  apply bool_decide_eq_false in H1, H2, H3. done.
Qed.

Lemma format_row_line idx worker w :
  printable worker = true ->
  format_row AlignCenter AlignLeft AlignLeft AlignLeft
    (PInt idx) (get worker "name") (get worker "number")
    (get worker "birthday") w
  = (Ok (row_line idx worker), w).
Proof.
  intros (H1 & H2 & H3)%printable_get.
  unfold format_row, bind.
  rewrite (format_field_shown AlignCenter 4 (PInt idx)) by done.
  rewrite (format_field_shown _ _ _ H1), (format_field_shown _ _ _ H2),
    (format_field_shown _ _ _ H3).
  reflexivity.
Qed.

Lemma printed_printed w a b : printed (printed w a) b = printed w (a ++ b).
Proof. unfold printed. cbn [fs stdout cwd]. by rewrite <- app_assoc. Qed.

Lemma display_rows_run people : forall idx w,
  forallb printable people = true ->
  display_rows idx people w = (Ok tt, printed w (table_rows idx people)).
Proof.
  induction people as [|worker rest IH]; intros idx w H.
  - cbn. unfold ret, printed. rewrite app_nil_r. by destruct w.
  - cbn [forallb] in H. apply andb_true_iff in H as [H1 H2].
    cbn [display_rows table_rows]. unfold bind at 1.
    rewrite format_row_line by done.
    unfold bind, print. cbn [fs stdout cwd].
    rewrite IH by done. unfold printed. cbn [fs stdout cwd].
    by rewrite <- !app_assoc.
Qed.

Lemma display_workers_run worker rest w :
  forallb printable (worker :: rest) = true ->
  display_workers (worker :: rest) w
  = (Ok tt, printed w (line :: header_line :: line :: table_rows 1 (worker :: rest))).
Proof.
  intros H. unfold display_workers, bind at 1, print at 1.
  unfold bind at 1.
  change (format_row _ _ _ _ _ _ _ _ _) with
    (Ok header_line, World (fs w) (stdout w ++ [line]) (cwd w)).
  unfold bind, print. cbn [fs stdout cwd].
  rewrite display_rows_run by done. unfold printed. cbn [fs stdout cwd].
  by rewrite <- !app_assoc.
Qed.

Lemma length_table_rows people idx :
  length (table_rows idx people) = (2 * length people)%nat.
Proof.
  revert idx. induction people as [|worker rest IH]; intros idx; [done|].
  cbn [table_rows length]. rewrite IH. lia.
Qed.

Lemma table_rows_border people : forall idx k,
  (k < length people)%nat ->
  table_rows idx people !! (2 * k + 1)%nat = Some line.
Proof.
  induction people as [|worker rest IH]; intros idx k Hk; cbn [length] in Hk; [lia|].
  destruct k as [|k]; [done|].
  replace (2 * S k + 1)%nat with (S (S (2 * k + 1))) by lia.
  cbn [table_rows lookup list_lookup]. apply IH. lia.
Qed.

Lemma table_rows_row people : forall idx k worker,
  people !! k = Some worker ->
  table_rows idx people !! (2 * k)%nat
  = Some (row_line (idx + Z.of_nat k) worker).
Proof.
  induction people as [|w0 rest IH]; intros idx k worker Hk; [done|].
  destruct k as [|k].
  - cbn in Hk. injection Hk as ->. cbn [table_rows].
    replace (idx + Z.of_nat 0) with idx by lia. done.
  - replace (2 * S k)%nat with (S (S (2 * k))) by lia.
    cbn in Hk.
    transitivity (table_rows (idx + 1) rest !! (2 * k)%nat); [reflexivity|].
    rewrite (IH (idx + 1) k worker Hk). do 2 f_equal. lia.
Qed.

(** X1.  On a non-empty list of records none of whose values is [None],
    [display_workers] returns and prints three lines and two more per
    record: the header between two borders, then for the k-th record
    (counting from 0) its row under the index k+1, followed by a border.
    A record that lacks a key is shown with an empty field. *)
Theorem display_workers_table worker rest w :
  forallb printable (worker :: rest) = true ->
  exists out,
    display_workers (worker :: rest) w = (Ok tt, printed w out)
    /\ length out = (3 + 2 * length (worker :: rest))%nat
    /\ out !! 1%nat = Some header_line
    /\ (forall k, (k <= length (worker :: rest))%nat ->
                  out !! (2 * k)%nat = Some line)
    /\ (forall k r, (worker :: rest) !! k = Some r ->
                    out !! (2 * k + 3)%nat
                    = Some (row_line (Z.of_nat k + 1) r)).
Proof.
  intros H. eexists. split; [by apply display_workers_run|].
  split; [|split; [done|split]].
  - cbn [length]. rewrite (length_table_rows (worker :: rest)).
    cbn [length]. lia.
  - intros k Hk. destruct k as [|[|k]]; [done|done|].
    replace (2 * S (S k))%nat with (S (S (S (2 * k + 1)))) by lia.
    transitivity (table_rows 1 (worker :: rest) !! (2 * k + 1)%nat);
      [reflexivity|].
    apply table_rows_border. cbn [length] in Hk |- *. lia.
  - intros k r Hk.
    replace (2 * k + 3)%nat with (S (S (S (2 * k)))) by lia.
    transitivity (table_rows 1 (worker :: rest) !! (2 * k)%nat);
      [reflexivity|].
    rewrite (table_rows_row (worker :: rest) 1 k r Hk). do 2 f_equal. lia.
Qed.

(** X1 on the one record of Ann Lee. *)
Lemma display_workers_table_witness :
  forallb printable [ann_record] = true
  /\ exists out,
       display_workers [ann_record] fresh_world
       = (Ok tt, printed fresh_world out)
       /\ length out = (3 + 2 * length [ann_record])%nat
       /\ out !! 1%nat = Some header_line
       /\ (forall k, (k <= length [ann_record])%nat ->
                     out !! (2 * k)%nat = Some line)
       /\ (forall k r, [ann_record] !! k = Some r ->
                       out !! (2 * k + 3)%nat
                       = Some (row_line (Z.of_nat k + 1) r)).
Proof.
  split;
    [ reflexivity
    | apply (display_workers_table ann_record [] fresh_world); reflexivity ].
Defined.

Lemma length_spaces n : length (spaces n) = n.
Proof. apply length_replicate. Qed.

Lemma length_pad a width s : length (pad a width s) = Nat.max width (length s).
Proof.
  unfold pad. destruct a; rewrite !length_app, !length_spaces.
  - lia.
  - pose proof (Nat.Div0.div_le_upper_bound (width - length s) 2 (width - length s)). lia.
Qed.

Lemma length_row_line idx worker :
  length (row_line idx worker)
  = (13 + Nat.max 4 (length (str_of_Z idx))
     + Nat.max 30 (length (shown (get worker "name")))
     + Nat.max 15 (length (shown (get worker "number")))
     + Nat.max 15 (length (shown (get worker "birthday"))))%nat.
Proof.
  unfold row_line. cbn [concat]. rewrite !length_app, !length_pad.
  change (length (str "| ")) with 2%nat.
  change (length (str " | ")) with 3%nat.
  change (length (str " |")) with 2%nat.
  cbn [length]. lia.
Qed.

Lemma short_indices :
  forallb (fun i => (length (str_of_Z (Z.of_nat i)) <=? 4)%nat) (seq 0 (100 * 100)) = true.
Proof. vm_compute. reflexivity. Qed.

Lemma short_index idx : 0 <= idx <= 9999 -> (length (str_of_Z idx) <= 4)%nat.
Proof.
  intros H. pose proof short_indices as S0. rewrite forallb_forall in S0.
  specialize (S0 (Z.to_nat idx)). rewrite Z2Nat.id in S0 by lia.
  apply Nat.leb_le, S0, in_seq. lia.
Qed.

Lemma length_line : length line = 77%nat.
Proof. reflexivity. Qed.

Lemma length_header_line : length header_line = 77%nat.
Proof. reflexivity. Qed.

Lemma length_row_fits idx worker :
  0 <= idx <= 9999 -> fits worker = true ->
  length (row_line idx worker) = 77%nat.
Proof.
  intros Hi Hf. rewrite length_row_line. pose proof (short_index idx Hi).
  unfold fits in Hf. rewrite !andb_true_iff, !Nat.leb_le in Hf. lia.
Qed.

Lemma table_rows_widths people : forall idx,
  0 <= idx -> idx + Z.of_nat (length people) <= 10000 ->
  forallb fits people = true ->
  Forall (fun l => length l = 77%nat) (table_rows idx people).
Proof.
  induction people as [|worker rest IH]; intros idx H0 Hn Hf; [constructor|].
  cbn [forallb] in Hf. apply andb_true_iff in Hf as [Hf1 Hf2].
  cbn [length] in Hn. cbn [table_rows].
  constructor; [apply length_row_fits; [lia|done]|].
  constructor; [apply length_line|].
  apply IH; [lia|lia|done].
Qed.

(** X2.  When every value fits its column (name 30, number 15, birthday 15
    characters) and there are at most 9999 records, every line that
    [display_workers] prints is 77 characters wide: borders, header and rows
    line up. *)
Theorem display_workers_aligned worker rest w :
  forallb printable (worker :: rest) = true ->
  forallb fits (worker :: rest) = true ->
  (Z.of_nat (length (worker :: rest)) <=? 9999) = true ->
  exists out,
    display_workers (worker :: rest) w = (Ok tt, printed w out)
    /\ Forall (fun l => length l = 77%nat) out.
Proof.
  intros Hp Hf Hn. apply Z.leb_le in Hn.
  eexists. split; [by apply display_workers_run|].
  repeat (constructor; [reflexivity|]).
  apply table_rows_widths; [lia|lia|done].
Qed.

(** X2 on the one record of Ann Lee. *)
Lemma display_workers_aligned_witness :
  forallb printable [ann_record] = true
  /\ forallb fits [ann_record] = true
  /\ (Z.of_nat (length [ann_record]) <=? 9999) = true
  /\ exists out,
       display_workers [ann_record] fresh_world
       = (Ok tt, printed fresh_world out)
       /\ Forall (fun l => length l = 77%nat) out.
Proof.
  split; [reflexivity|]. split; [reflexivity|]. split; [reflexivity|].
  apply (display_workers_aligned ann_record [] fresh_world); reflexivity.
Defined.

Lemma format_row_none idx worker w :
  printable worker = false ->
  format_row AlignCenter AlignLeft AlignLeft AlignLeft
    (PInt idx) (get worker "name") (get worker "number")
    (get worker "birthday") w
  = (Raise TypeError, w).
Proof.
  unfold printable. cbn [forallb]. intros H.
  unfold format_row, bind. cbn [format_field]. unfold ret at 1.
  destruct (get worker "name"), (get worker "number"),
    (get worker "birthday"); try done.
Qed.

Lemma display_rows_stop people : forall idx w,
  forallb printable people = false ->
  exists k r,
    people !! k = Some r
    /\ printable r = false
    /\ forallb printable (take k people) = true
    /\ display_rows idx people w
       = (Raise TypeError, printed w (table_rows idx (take k people))).
Proof.
  induction people as [|worker rest IH]; intros idx w H; [done|].
  cbn [forallb] in H. destruct (printable worker) eqn:P.
  - cbn [andb] in H.
    destruct (IH (idx + 1) (printed (printed w [row_line idx worker]) [line]) H)
      as (k & r & H1 & H2 & H3 & H4).
    exists (S k), r. repeat split; try done.
    + cbn [take forallb]. by rewrite P, H3.
    + cbn [display_rows take table_rows]. unfold bind at 1.
      rewrite format_row_line by done.
      unfold bind, print. cbn [fs stdout cwd].
      unfold printed in H4 at 1 2. cbn [fs stdout cwd] in H4.
      rewrite H4. unfold printed. cbn [fs stdout cwd].
      by rewrite <- !app_assoc.
  - exists 0%nat, worker. repeat split; try done.
    cbn [display_rows take table_rows]. unfold bind at 1.
    rewrite format_row_none by done.
    unfold printed. rewrite app_nil_r. by destruct w.
Qed.

(** X3.  A record with a [None] among its three values stops
    [display_workers] with [TypeError]: what is on the output then is the
    header and the rows of the records before the first such record. *)
Theorem display_workers_none worker rest w :
  forallb printable (worker :: rest) = false ->
  exists k r,
    (worker :: rest) !! k = Some r
    /\ printable r = false
    /\ forallb printable (take k (worker :: rest)) = true
    /\ display_workers (worker :: rest) w
       = (Raise TypeError,
          printed w (line :: header_line :: line
                     :: table_rows 1 (take k (worker :: rest)))).
Proof.
  intros H.
  destruct (display_rows_stop (worker :: rest) 1
              (printed w [line; header_line; line]) H)
    as (k & r & H1 & H2 & H3 & H4).
  exists k, r. repeat split; try done.
  unfold display_workers, bind at 1, print at 1.
  unfold bind at 1.
  change (format_row _ _ _ _ _ _ _ _ _) with
    (Ok header_line, World (fs w) (stdout w ++ [line]) (cwd w)).
  unfold bind, print. cbn [fs stdout cwd].
  unfold printed in H4 at 1 2. cbn [fs stdout cwd] in H4.
  rewrite <- !app_assoc. cbn [app].
  rewrite H4. unfold printed. cbn [fs stdout cwd].
  by rewrite <- !app_assoc.
Qed.

(** X3 on a single record whose name is [None]. *)
Lemma display_workers_none_witness :
  forallb printable [nameless_record] = false
  /\ exists k r,
       [nameless_record] !! k = Some r
       /\ printable r = false
       /\ forallb printable (take k [nameless_record]) = true
       /\ display_workers [nameless_record] fresh_world
          = (Raise TypeError,
             printed fresh_world
               (line :: header_line :: line
                :: table_rows 1 (take k [nameless_record]))).
Proof.
  split;
    [ reflexivity
    | apply (display_workers_none nameless_record [] fresh_world);
      reflexivity ].
Defined.

(** ** What the functions leave alone *)

Lemma ensure_schema_keeps (db : database) name t :
  db !! name = Some t -> ensure_schema db !! name = Some t.
Proof.
  intros H. unfold ensure_schema, create_table_if_not_exists.
  destruct (db !! "numbers") eqn:E1.
  - destruct (db !! "people") eqn:E2; [done|].
    destruct (decide (name = "people")) as [->|Hne]; [congruence|].
    by rewrite lookup_insert_ne.
  - destruct (decide (name = "numbers")) as [->|Hn]; [congruence|].
    destruct ((<["numbers":=_]> db) !! "people") eqn:E2.
    + by rewrite lookup_insert_ne.
    + destruct (decide (name = "people")) as [->|Hp].
      * rewrite lookup_insert_ne in E2 by done. congruence.
      * by rewrite !lookup_insert_ne.
Qed.

(** X4.  [create_db] never replaces a table: whatever table the file holds
    under some name, rows and counter included, it holds unchanged
    afterwards. *)
Theorem create_db_keeps_tables path w name t :
  database_at w path !! name = Some t ->
  database_at (snd (create_db path w)) path !! name = Some t.
Proof.
  intros H. rewrite create_db_run. cbn [snd].
  rewrite database_at_written. by apply ensure_schema_keeps.
Qed.

(** X4 on the file holding Ann Lee. *)
Lemma create_db_keeps_tables_witness :
  database_at (world_of ann_store default_db fresh_world) default_db
    !! "people" = Some (people_table ann_store)
  /\ database_at
       (snd (create_db default_db
               (world_of ann_store default_db fresh_world)))
       default_db !! "people" = Some (people_table ann_store).
Proof.
  split;
    [ reflexivity
    | apply (create_db_keeps_tables default_db
               (world_of ann_store default_db fresh_world) "people"
               (people_table ann_store));
      reflexivity ].
Defined.

Lemma pystr_eqb_false (a b : pystr) : pystr_eqb a b = false -> a <> b.
Proof. unfold pystr_eqb. by intros H%bool_decide_eq_false. Qed.

(** X5.  [create_db] and [add_worker] touch the one file they are given:
    a file at any other path is left as it was, and neither prints. *)
Theorem writers_touch_one_file path path' name number birthday w :
  pystr_eqb path' path = false ->
  (fs (snd (create_db path w)) !! path' = fs w !! path'
   /\ stdout (snd (create_db path w)) = stdout w)
  /\ (fs (snd (add_worker path name number birthday w)) !! path' = fs w !! path'
      /\ stdout (snd (add_worker path name number birthday w)) = stdout w).
Proof.
  intros Hne%pystr_eqb_false. split.
  - rewrite create_db_run. cbn [snd fs stdout]. by rewrite lookup_insert_ne.
  - pose proof (add_worker_all_or_nothing path name number birthday w) as H.
    destruct (add_worker path name number birthday w) as [[[]|e] w'];
      cbn [snd].
    + destruct H as [db ->]. cbn [fs stdout]. by rewrite lookup_insert_ne.
    + by subst.
Qed.

(** X5 on the file holding Ann Lee and a second path. *)
Lemma writers_touch_one_file_witness :
  pystr_eqb other_db default_db = false
  /\ (fs (snd (create_db default_db
                 (world_of ann_store default_db fresh_world)))
        !! other_db
      = fs (world_of ann_store default_db fresh_world) !! other_db
      /\ stdout (snd (create_db default_db
                        (world_of ann_store default_db fresh_world)))
         = stdout (world_of ann_store default_db fresh_world))
     /\ (fs (snd (add_worker default_db (str "Bob Ray") (Some 777)
                    (str "1991-02-03")
                    (world_of ann_store default_db fresh_world)))
           !! other_db
         = fs (world_of ann_store default_db fresh_world) !! other_db
         /\ stdout (snd (add_worker default_db (str "Bob Ray") (Some 777)
                           (str "1991-02-03")
                           (world_of ann_store default_db fresh_world)))
            = stdout (world_of ann_store default_db fresh_world)).
Proof.
  split;
    [ reflexivity
    | apply (writers_touch_one_file default_db other_db (str "Bob Ray")
               (Some 777) (str "1991-02-03")
               (world_of ann_store default_db fresh_world));
      reflexivity ].
Defined.

Lemma for_each_record_world rows w :
  snd (for_each record_of_row rows w) = w.
Proof.
  induction rows as [|row rows IH]; [done|].
  cbn [for_each]. unfold bind at 1.
  destruct (record_of_row row w) as [[r|e] w1] eqn:E.
  - assert (w1 = w) as ->.
    { revert E. cbv [record_of_row bind item ret raise].
      repeat (case_match; simplify_eq; try done); congruence. }
    unfold bind. destruct (for_each record_of_row rows w) as [[rs|e] w2] eqn:E2;
      cbn [snd] in *; by subst.
  - revert E. cbv [record_of_row bind item ret raise].
    repeat (case_match; simplify_eq; try done); cbn; congruence.
Qed.

(** X6.  [find_worker] and [select_all] only read: whether they return or
    raise, every database holds afterwards what it held before, and nothing
    was printed. *)
Theorem queries_read_only path q w path' :
  (database_at (snd (find_worker path q w)) path' = database_at w path'
   /\ stdout (snd (find_worker path q w)) = stdout w)
  /\ (database_at (snd (select_all path w)) path' = database_at w path'
      /\ stdout (snd (select_all path w)) = stdout w).
Proof.
  assert (F : snd (find_worker path q w) = w).
  { unfold find_worker. rewrite run_bind. unfold connect. rewrite run_bind.
    set (conn := Connection path (database_at w path) false).
    pose proof (execute_select_world conn find_worker_query [PStr q] w) as E.
    destruct (execute_select conn find_worker_query [PStr q] w)
      as [[rows|e] w1]; cbn [snd] in E; subst w1; [|done].
    rewrite run_bind. unfold close, ret at 1.
    destruct (length _ =? 0)%nat; [done|]. apply for_each_record_world. }
  assert (S : snd (select_all path w) = w).
  { unfold select_all. rewrite run_bind. unfold connect. rewrite run_bind.
    set (conn := Connection path (database_at w path) false).
    pose proof (execute_select_world conn select_all_query [] w) as E.
    destruct (execute_select conn select_all_query [] w)
      as [[rows|e] w1]; cbn [snd] in E; subst w1; [|done].
    rewrite run_bind. unfold close, ret at 1.
    apply for_each_record_world. }
  by rewrite F, S.
Qed.

(** ** Errors at the storage layer *)

Lemma database_at_without path w : database_at (world_without path w) path = ∅.
Proof. unfold database_at, world_without. cbn [fs]. by rewrite lookup_delete_eq. Qed.

(** X7.  Without the schema nothing works: on a path without a file
    [add_worker] raises "no such table: people" and leaves the database
    empty, and [find_worker] and [select_all] raise "no such table:
    numbers".  The tables come from [create_db] alone. *)
Theorem no_schema_no_service path w name number birthday q :
  (fst (add_worker path name number birthday (world_without path w))
   = Raise (no_such_table "people")
   /\ database_at
        (snd (add_worker path name number birthday (world_without path w)))
        path = ∅)
  /\ fst (find_worker path q (world_without path w))
     = Raise (no_such_table "numbers")
  /\ fst (select_all path (world_without path w))
     = Raise (no_such_table "numbers").
Proof.
  repeat split.
  - unfold add_worker, bind, connect, execute_select.
    rewrite database_at_without. reflexivity.
  - unfold add_worker, bind, connect, execute_select.
    rewrite database_at_without. cbn [snd]. apply database_at_without.
  - unfold find_worker, bind, connect, execute_select.
    rewrite database_at_without. reflexivity.
  - unfold select_all, bind, connect, execute_select.
    rewrite database_at_without. reflexivity.
Qed.


(** On a state with room for a further id, as the program's own states
    are for all practical purposes, that is the NOT NULL error. *)
Example add_worker_without_number_ann :
  add_worker default_db (str "Bob Ray") None (str "1991-02-03")
    (world_of ann_store default_db fresh_world)
  = (Raise (SqliteError
              (IntegrityError
                 "NOT NULL constraint failed: numbers.phone_number")),
     world_of ann_store default_db fresh_world).
Proof. rewrite add_worker_run. reflexivity. Qed.

(** ** Adding, then finding *)


Lemma pattern_percent_step pat s :
  pattern_compare (percent :: pat) s
  = pattern_compare pat s
    || match s with
       | [] => false
       | _ :: s' => pattern_compare (percent :: pat) s'
       end.
Proof. by destruct s. Qed.










Lemma pattern_percents q s :
  forallb (fun c => (c =? percent)%N) q = true ->
  pattern_compare (q ++ [percent]) s = true.
Proof.
  revert s. induction q as [|c q IH]; intros s H; [apply pattern_percent|].
  cbn [forallb] in H. apply andb_true_iff in H as [Hc Hq].
  apply N.eqb_eq in Hc as ->. cbn [app].
  rewrite pattern_percent_step, IH by done. done.
Qed.

Lemma c_str_percents q t :
  forallb (fun c => (c =? percent)%N) q = true ->
  c_str (q ++ percent :: t) = (q ++ percent :: c_str t)%list.
Proof.
  induction q as [|c q IH]; intros H; [done|].
  cbn [forallb] in H. apply andb_true_iff in H as [Hc Hq].
  apply N.eqb_eq in Hc as ->. cbn [app c_str].
  change (percent =? 0)%N with false. by rewrite IH.
Qed.

(** X10.  The query is not escaped: one made of percent signs alone, fewer
    than 50000 of them, is a pattern that every name matches, and
    [find_worker] returns the whole join. *)
Theorem find_worker_wildcard_query st path w q :
  forallb (fun c => (c =? 37)%N) q = true ->
  (utf8_length q < 50000)%N ->
  find_worker path q (world_of st path w)
  = (Ok (all_records st), world_of st path w).
Proof.
  intros H Hs%N.ltb_lt. rewrite find_worker_run. fold (short q) in Hs.
  rewrite Hs. do 2 f_equal.
  apply records_where_all. intros s.
  unfold name_matches, like_match. rewrite str_percent.
  rewrite (c_str_percents q [] H). by apply pattern_percents.
Qed.

(** X10 on the three names and the query of two percent signs. *)
Lemma find_worker_wildcard_query_witness :
  forallb (fun c => (c =? 37)%N) (str "%%") = true
  /\ (utf8_length (str "%%") < 50000)%N
  /\ find_worker default_db (str "%%")
       (world_of names_store default_db fresh_world)
     = (Ok [flat_record (str "Smith") (str "1980-01-01") 100;
            flat_record (str "Jones") (str "1981-02-02") 200;
            flat_record (str "smith") (str "1982-03-03") 300],
        world_of names_store default_db fresh_world).
Proof.
  split; [reflexivity|]. split; [reflexivity|].
  apply (find_worker_wildcard_query names_store default_db fresh_world
           (str "%%")); reflexivity.
Defined.

(** ** The data the program keeps *)

Lemma tidy_empty : tidy empty_store.
Proof. split; try done. constructor. Qed.

Lemma ids_bounded n k : In k (map Z.of_nat (seq 1 n)) -> 1 <= k <= Z.of_nat n.
Proof. intros (i & <- & Hi%in_seq)%in_map_iff. lia. Qed.

Lemma foldr_max_bound (ids : list Z) b :
  0 <= b -> (forall k, In k ids -> k <= b) -> foldr Z.max 0 ids <= b.
Proof.
  intros Hb. induction ids as [|i ids IH]; intros H; cbn [foldr]; [done|].
  pose proof (H i (or_introl eq_refl)).
  assert (foldr Z.max 0 ids <= b) by (apply IH; intros k Hk; apply H; by right).
  lia.
Qed.

Lemma tidy_next st : tidy st -> next_person_id st = Z.of_nat (length (people st)) + 1.
Proof.
  intros T. unfold next_person_id. rewrite (tidy_people_seq st T).
  assert (foldr Z.max 0 (map person_id (people st)) <= Z.of_nat (length (people st))).
  { apply foldr_max_bound; [lia|]. intros k Hk. rewrite (tidy_ids st T) in Hk.
    apply ids_bounded in Hk. lia. }
  pose proof (foldr_max_le (map person_id (people st))). 
  assert (0 <= foldr Z.max 0 (map person_id (people st))).
  { clear. induction (map person_id (people st)); cbn; lia. }
  lia.
Qed.

Lemma existsb_owner st id :
  existsb (has_owner id) (numbers st) = true <-> In id (map phone_owner (numbers st)).
Proof.
  rewrite existsb_exists, in_map_iff. unfold has_owner.
  split; intros (m & H1 & H2).
  - exists m. split; [by apply Z.eqb_eq|done].
  - exists m. split; [done|]. by apply Z.eqb_eq.
Qed.

Lemma tidy_after_add st name number birthday :
  tidy st -> tidy (after_add st name number birthday).
Proof.
  intros T.
  destruct (after_add_cases st name number birthday)
    as [->|(n & -> & E & ->)]; [done|].
  assert (F : find (has_name name) (people st) = None).
  { destruct (find _ _) as [p|] eqn:F; [|done].
    assert (existsb (has_owner (owner_of st name)) (numbers st) = true);
      [|congruence].
    apply existsb_owner. rewrite (tidy_owners st T).
    unfold owner_of. rewrite F.
    apply find_some in F as [Hin _]. by apply in_map. }
  unfold owner_of, with_person. rewrite F.
  pose proof (tidy_next st T) as Hk.
  assert (P : place_phone (Phone (next_person_id st) n) (numbers st)
              = (numbers st ++ [Phone (next_person_id st) n])%list).
  { apply place_phone_last, forallb_forall. intros m Hm. cbn [phone_owner].
    apply Z.leb_le.
    assert (In (phone_owner m) (map phone_owner (numbers st))) as Ho
      by by apply in_map.
    rewrite (tidy_owners st T), (tidy_ids st T) in Ho.
    apply ids_bounded in Ho. lia. }
  unfold attach, add_person. cbn [people numbers people_seq numbers_seq].
  rewrite P.
  split; cbn [people numbers people_seq numbers_seq].
  - rewrite map_app, length_app. cbn [map length person_id].
    rewrite (tidy_ids st T), Hk.
    replace (length (people st) + 1)%nat with (S (length (people st))) by lia.
    rewrite seq_S, map_app. cbn [map]. do 2 f_equal. lia.
  - rewrite !map_app. cbn [map phone_owner person_id].
    by rewrite (tidy_owners st T).
  - rewrite map_app. cbn [map person_name].
    apply NoDup_app. split; [apply (tidy_names st T)|]. split.
    + intros s Hs [->|[]]%list_elem_of_In.
      apply list_elem_of_In, in_map_iff in Hs as (p & Hp & Hin).
      pose proof (find_none _ _ F p Hin) as Hf.
      unfold has_name, pystr_eqb in Hf. apply bool_decide_eq_false in Hf. done.
    + apply NoDup_singleton.
  - rewrite length_app. cbn [length]. lia.
  - rewrite length_app, (tidy_numbers_seq st T). cbn [length]. lia.
Qed.

Lemma after_calls_from st path w calls :
  tidy st ->
  exists st',
    foldl (fun w' (c : call) =>
             snd (add_worker path (fst (fst c)) (snd (fst c)) (snd c) w'))
          (world_of st path w) calls
    = world_of st' path w
    /\ tidy st'.
Proof.
  revert st. induction calls as [|[[name number] birthday] calls IH];
    intros st T.
  - by exists st.
  - cbn [foldl fst snd]. rewrite add_worker_after.
    apply IH. by apply tidy_after_add.
Qed.

Lemma after_calls_tidy path calls w :
  exists st, after_calls path calls w = world_of st path w /\ tidy st.
Proof.
  unfold after_calls. rewrite create_db_fresh. cbn [snd].
  apply after_calls_from, tidy_empty.
Qed.

(** X11.  Whatever calls of [add_worker] follow [create_db] on a new file,
    and whether they return or raise, the file holds well-kept data: person
    ids 1, 2, ... in order, for every person exactly one phone row with the
    same id, and no name twice. *)
Theorem stored_data_is_tidy path calls w :
  exists st, after_calls path calls w = world_of st path w /\ tidy st.
Proof. apply after_calls_tidy. Qed.





(** The same run, evaluated: Bob Ray's record, and Ann Lee stored once. *)
Example one_record_per_person_run :
  after_calls default_db three_calls fresh_world
  = world_of (Store [Person 1 (str "Ann Lee") (str "1990-01-01");
                     Person 2 (str "Bob Ray") (str "1991-02-03")]
                    [Phone 1 555; Phone 2 777] 2 2)
             default_db fresh_world
  /\ fst (find_worker default_db (str "Bob")
            (after_calls default_db three_calls fresh_world))
     = Ok [flat_record (str "Bob Ray") (str "1991-02-03") 777].
Proof. split; vm_compute; reflexivity. Qed.

(** ** Command lines *)

Lemma parse_options_step args opt v rest ns a pv :
  find_argument args opt = Some a ->
  starts_with_dash v = false ->
  convert (arg_ty a) v = Some pv ->
  parse_options args (opt :: v :: rest) ns
  = parse_options args rest (<[dest a := pv]> ns).
Proof. intros H1 H2 H3. cbn [parse_options]. by rewrite H1, H2, H3. Qed.









(** The lines of that run. *)
Example main_find_jones :
  (fun r => (fst r, stdout (snd r)))
    <$> main [str "find"; str "--db"; default_db; str "-n"; str "jo"]
             (world_of names_store default_db fresh_world)
  = Some (Ok tt,
     [ str "+------+--------------------------------+-----------------+-----------------+";
       str "|  №   |         Фамилия и имя          |      Номер      |  День рождения  |";
       str "+------+--------------------------------+-----------------+-----------------+";
       str "|  1   | Jones                          | 200             | 1981-02-02      |";
       str "+------+--------------------------------+-----------------+-----------------+" ]).
Proof. vm_compute. reflexivity. Qed.









(** The same command line with a number of twenty digits: the run ends
    with [OverflowError], and the file holds the two empty tables. *)
Example main_add_huge_number :
  main [str "add"; str "--db"; default_db; str "--name"; str "Ann Lee";
        str "--number"; str "99999999999999999999";
        str "--birthday"; str "1990-01-01"]
       (world_without default_db fresh_world)
  = Some (Raise OverflowError, world_of empty_store default_db fresh_world).
Proof. vm_compute. reflexivity. Qed.




(** X17.  The required options are required: [add] without [--birthday]
    or without [--name], and [find] without [--name] or with [-n] and no
    value, end with exit status 2 before any file is opened. *)
Theorem main_missing_required name birthday w :
  starts_with_dash name = false -> starts_with_dash birthday = false ->
  main [str "add"; str "--name"; name] w = Some (Raise (SystemExit 2), w)
  /\ main [str "add"; str "--birthday"; birthday] w
     = Some (Raise (SystemExit 2), w)
  /\ main [str "find"] w = Some (Raise (SystemExit 2), w)
  /\ main [str "find"; str "-n"] w = Some (Raise (SystemExit 2), w).
Proof.
  intros Hn Hb. split; [|split; [|split; reflexivity]].
  - unfold main, parse_args.
    change (starts_with_dash (str "add")) with false. cbn match.
    change (find_subparser (cwd w) (str "add"))
      with (Some (add_arguments (cwd w))). cbn match.
    rewrite (parse_options_step _ _ name _ _ name_arg_add (PStr name));
      [|reflexivity|done|reflexivity].
    cbn [parse_options dest name_arg_add].
    change (missing_required _ _) with true. reflexivity.
  - unfold main, parse_args.
    change (starts_with_dash (str "add")) with false. cbn match.
    change (find_subparser (cwd w) (str "add"))
      with (Some (add_arguments (cwd w))). cbn match.
    rewrite (parse_options_step _ _ birthday _ _ birthday_arg (PStr birthday));
      [|reflexivity|done|reflexivity].
    cbn [parse_options dest birthday_arg].
    change (missing_required _ _) with true. reflexivity.
Qed.

(** X17 on the name Bob Ray and a birthday. *)
Lemma main_missing_required_witness :
  starts_with_dash (str "Bob Ray") = false
  /\ starts_with_dash (str "1991-02-03") = false
  /\ (main [str "add"; str "--name"; str "Bob Ray"] fresh_world
      = Some (Raise (SystemExit 2), fresh_world)
      /\ main [str "add"; str "--birthday"; str "1991-02-03"] fresh_world
         = Some (Raise (SystemExit 2), fresh_world)
      /\ main [str "find"] fresh_world
         = Some (Raise (SystemExit 2), fresh_world)
      /\ main [str "find"; str "-n"] fresh_world
         = Some (Raise (SystemExit 2), fresh_world)).
Proof.
  split; [reflexivity|]. split; [reflexivity|].
  apply (main_missing_required (str "Bob Ray") (str "1991-02-03")
           fresh_world); reflexivity.
Defined.


